(** * micropython-modbus: the asynchronous RTU interface

    A shallow embedding of [umodbus/asynchronous/serial.py] (class
    [AsyncRTUServer]) together with the properties its specification
    states about serial timing, frame assembly, the direction pin and the
    handling of foreign frames, and of the host-side validation of TCP
    responses exercised by [tests/test_tcp_example.py].

    Conventions.
    - Python [int] is [Z]; [//] is floor division, which is [Z.div].
    - [bytes] / [bytearray] are lists of [Byte.byte].
    - Durations are integers in microseconds.  The source hands
      [x * US_TO_S] seconds to [asyncio]; the model keeps the count [x].
    - [Optional[T]] is [option T]; a raised exception is the left summand
      of a [sum]. *)

From Stdlib Require Import ZArith List Lia Bool.
From Stdlib Require Import Strings.Byte.
Import ListNotations.
Local Open Scope Z_scope.

Definition bytes := list byte.

(** Numeric value of a byte, as Python's indexing [b[i]] yields it. *)
Definition byte_val (b : byte) : Z := Z.of_N (Byte.to_N b).

(** Exceptions that occur in the modelled code. *)
Inductive exn : Type :=
| ZeroDivisionError
| TypeError
| IndexError
| ModbusException (function_code exception_code : Z)
| OtherError (code : Z).

(** * The constructor: serial timing constants *)

Module RTU.

(** Arguments of [AsyncRTUServer.__init__]. *)
Record config : Type := {
  uart_id : Z;
  baudrate : Z;
  data_bits : Z;
  stop_bits : Z;
  parity : option Z;
  pins : option (Z * Z);
  ctrl_pin : option Z
}.

(** The defaults of the signature, with the pins an RTU example uses. *)
Definition default_config : config :=
  {| uart_id := 1; baudrate := 9600; data_bits := 8; stop_bits := 1;
     parity := None; pins := Some (25, 26); ctrl_pin := None |}.

(** The attributes of the instance that the methods below read.  The
    UART, its stream reader and its stream writer are collaborators; they
    appear as the environment of each method. *)
Record AsyncRTUServer : Type := {
  _ctrlPin : option Z;
  _t1char : Z;
  _t35chars : Z
}.

(** [__init__].  [pins[0]] on the default [pins=None] raises [TypeError];
    [// baudrate] raises [ZeroDivisionError] on a zero baudrate.  The
    [UART] and [Pin] collaborators are taken to accept what they get. *)
Definition init (c : config) : exn + AsyncRTUServer :=
  match pins c with
  | None => inl TypeError
  | Some _ =>
      let pin := match ctrl_pin c with
                 | Some p => Some p
                 | None => None
                 end in
      let char_const := data_bits c + stop_bits c + 2 in
      if baudrate c =? 0 then inl ZeroDivisionError
      else
        let t1char := (1000000 * char_const) / baudrate c in
        let t35chars :=
          if baudrate c <=? 19200
          then (3500000 * char_const) / baudrate c
          else 1750 in
        inr {| _ctrlPin := pin; _t1char := t1char; _t35chars := t35chars |}
  end.

(** * [_uart_read_frame]: silence-delimited frame assembly *)

(** What the UART delivers, seen from [asyncio.wait_for(read(), t)]: each
    entry is one chunk, with the time in microseconds between the moment
    the reader starts to wait for it and the moment it is readable.  After
    the last entry nothing arrives any more. *)
Definition arrival : Type := (Z * bytes)%type.

Inductive wait_result : Type :=
| Data (data : bytes)
| TimeoutError.

(** [await asyncio.wait_for(self._uart_reader.read(), timeout)].  A chunk
    that is readable strictly before the deadline is returned; otherwise
    the wait is cancelled at the deadline and the chunk stays pending. *)
Definition wait_for_read (timeout : Z) (rx : list arrival)
  : wait_result * list arrival :=
  match rx with
  | [] => (TimeoutError, [])
  | (delay, data) :: rest =>
      if delay <? timeout then (Data data, rest)
      else (TimeoutError, (delay - timeout, data) :: rest)
  end.

(** Outcome of one call: the returned [bytearray], the timeouts given to
    [wait_for] in order, and what is still to arrive. *)
Record frame_run : Type := {
  received_bytes : bytes;
  waits : list Z;
  pending : list arrival
}.

(** The [while True] loop inside the [try]; it is left by the
    [TimeoutError] alone.  Every turn consumes one arrival, which is what
    the recursion follows. *)
Fixpoint read_loop (frame_timeout current_timeout : Z) (rx : list arrival)
    (received : bytes) (waited : list Z) : frame_run :=
  match rx with
  | [] =>
      {| received_bytes := received;
         waits := waited ++ [current_timeout];
         pending := [] |}
  | (delay, data) :: rest =>
      if delay <? current_timeout
      then read_loop frame_timeout frame_timeout rest
             (received ++ data) (waited ++ [current_timeout])
      else
        {| received_bytes := received;
           waits := waited ++ [current_timeout];
           pending := (delay - current_timeout, data) :: rest |}
  end.

(** The timeout in force for the first chunk: [if not timeout: timeout =
    2 * self._t35chars], where [not timeout] holds of [None] and of [0]. *)
Definition total_timeout (self : AsyncRTUServer) (timeout : option Z) : Z :=
  match timeout with
  | None => 2 * _t35chars self
  | Some t => if t =? 0 then 2 * _t35chars self else t
  end.

Definition frame_timeout (self : AsyncRTUServer) : Z := _t35chars self.

Definition _uart_read_frame (self : AsyncRTUServer) (timeout : option Z)
    (rx : list arrival) : frame_run :=
  read_loop (frame_timeout self) (total_timeout self timeout) rx [] [].

(** * Effects on the sending side *)

(** What the interface does to its collaborators. *)
Inductive event : Type :=
| EvPin (pin level : Z)     (* self._ctrlPin(level) *)
| EvSleep (us : Z)          (* await asyncio.sleep(us * US_TO_S) *)
| EvWrite (data : bytes)    (* self._uart_writer.write(data) *)
| EvDrain                   (* await self._uart_writer.drain() *)
| EvRead (data : bytes).    (* await self._uart_reader.read() gave data *)

(** The world a coroutine runs in: the monotonic time in microseconds, the
    period after which [time.ticks_us()] wraps around, the time each
    suspension or transfer takes beyond its minimum (chosen by the
    scheduler and the hardware, hence a script of naturals), and the
    time-stamped record of the effects so far. *)
Record world : Type := {
  clock : Z;
  ticks_period : positive;
  latency : list N;
  log : list (Z * event)
}.

Definition M (A : Type) : Type := world -> A * world.

Definition ret {A : Type} (a : A) : M A := fun w => (a, w).

Definition bind {A B : Type} (m : M A) (k : A -> M B) : M B :=
  fun w => let (a, w') := m w in k a w'.

Declare Scope io_scope.
Delimit Scope io_scope with io.
Notation "x <- m ;; k" := (bind m (fun x => k))
  (at level 61, m at next level, right associativity) : io_scope.
Notation "m ;; k" := (bind m (fun _ => k))
  (at level 61, right associativity) : io_scope.
Local Open Scope io_scope.

Definition emit (e : event) : M unit :=
  fun w => (tt, {| clock := clock w; ticks_period := ticks_period w;
                   latency := latency w;
                   log := log w ++ [(clock w, e)] |}).

(** Time passes: at least [d], plus what the environment adds. *)
Definition elapse (d : Z) : M unit :=
  fun w => (tt, {| clock := clock w + d + Z.of_N (hd 0%N (latency w));
                   ticks_period := ticks_period w;
                   latency := tl (latency w);
                   log := log w |}).

(** [self._ctrlPin(level)] *)
Definition pin_call (pin level : Z) : M unit := emit (EvPin pin level).

(** [await asyncio.sleep(us * US_TO_S)]: resumes no earlier than [us]
    microseconds later; a delay that is not positive yields once. *)
Definition sleep_us (us : Z) : M unit :=
  emit (EvSleep us) ;; elapse (Z.max 0 us).

(** [time.ticks_us()]: the clock, modulo its period. *)
Definition ticks_us : M Z :=
  fun w => (clock w mod Z.pos (ticks_period w), w).

(** [self._uart_writer.write(data)] *)
Definition uart_write (data : bytes) : M unit :=
  emit (EvWrite data) ;; elapse 0.

(** [await self._uart_writer.drain()] *)
Definition uart_drain : M unit := emit EvDrain ;; elapse 0.

(** The effects of a run, without their time stamps. *)
Definition effects (l : list (Z * event)) : list event := map snd l.

(** The bytes handed to the UART. *)
Fixpoint outbound (l : list event) : bytes :=
  match l with
  | [] => []
  | EvWrite data :: l' => data ++ outbound l'
  | _ :: l' => outbound l'
  end.

(** Python's [range(a, b)]. *)
Definition range (a b : nat) : list nat := seq a (b - a).

Section Methods.

(** Inherited from [CommonRTUFunctions] ([umodbus/serial.py], not part of
    the sources at hand); the methods below only call them. *)
Variable _form_serial_pdu : bytes -> Z -> bytes.
Variable _exit_read : bytes -> bool.
Variable _parse_request : bytes -> option (list Z) -> option bytes.

(** [super().send_exception_response(...)]: the task it hands back, if
    any, which is a pending [self._send(modbus_pdu, slave_addr)]. *)
Variable super_send_exception_response : Z -> Z -> Z -> option (bytes * Z).

(** [AsyncRequest(interface=self, data=...)] from [.common]; it parses the
    request and may raise. *)
Variable AsyncRequest : Type.
Variable new_AsyncRequest : AsyncRTUServer -> bytes -> exn + AsyncRequest.

(** ** [_uart_read] *)

(** The body of [for _ in range(1, 40)], with its [break].  [reads k] is
    what the [k]-th awaited [read()] returns: this is the loop of a call
    whose reads all complete, each with the bytes buffered by then;
    [uart_read_await_loop] below has the reads that never complete. *)
Fixpoint uart_read_loop (self : AsyncRTUServer) (reads : nat -> bytes)
    (iters : list nat) (k : nat) (response : bytes) (trace : list event)
  : bytes * list event :=
  match iters with
  | [] => (response, trace)
  | _ :: iters' =>
      let data := reads k in
      let response := response ++ data in
      if _exit_read response
      then (response, trace ++ [EvRead data])
      else uart_read_loop self reads iters' (S k) response
             (trace ++ [EvRead data; EvSleep (_t35chars self)])
  end.

Definition _uart_read (self : AsyncRTUServer) (reads : nat -> bytes)
  : bytes * list event :=
  uart_read_loop self reads (range 1 40) 0%nat [] [].

(** ** [_send] *)

(** [if self._ctrlPin:] tests an object that is either a [Pin] or [None];
    a [Pin] is true. *)
Definition _send (self : AsyncRTUServer) (modbus_pdu : bytes)
    (slave_addr : Z) : M unit :=
  let serial_pdu := _form_serial_pdu modbus_pdu slave_addr in
  send_start_time <-
    match _ctrlPin self with
    | Some pin =>
        pin_call pin 1 ;;
        sleep_us 1000 ;;
        ticks_us
    | None => ret 0
    end ;;
  uart_write serial_pdu ;;
  uart_drain ;;
  match _ctrlPin self with
  | Some pin =>
      let total_frame_time_us :=
        _t1char self * Z.of_nat (length serial_pdu) in
      let target_time := send_start_time + total_frame_time_us in
      now <- ticks_us ;;
      let time_difference := target_time - now in
      sleep_us time_difference ;;
      pin_call pin 0
  | None => ret tt
  end.

(** ** [send_exception_response] *)

Definition send_exception_response (self : AsyncRTUServer)
    (slave_addr function_code exception_code : Z) : M unit :=
  match super_send_exception_response slave_addr function_code
          exception_code with
  | Some (modbus_pdu, addr) => _send self modbus_pdu addr
  | None => ret tt
  end.

(** ** [get_request] *)

(** [rx] is what arrives on the UART while the call reads.  The function
    returns the request, or [None] by falling off its end; an exception
    other than [ModbusException] leaves it. *)
Definition get_request (self : AsyncRTUServer)
    (unit_addr_list : option (list Z)) (timeout : option Z)
    (rx : list arrival) : M (exn + option AsyncRequest) :=
  let req := received_bytes (_uart_read_frame self timeout rx) in
  let req_no_crc := _parse_request req unit_addr_list in
  match req_no_crc with
  | None => ret (inr None)
  | Some data =>
      match new_AsyncRequest self data with
      | inr request => ret (inr (Some request))
      | inl (ModbusException function_code exception_code) =>
          match req with
          | [] => ret (inl IndexError)
          | b :: _ =>
              send_exception_response self (byte_val b) function_code
                exception_code ;;
              ret (inr None)
          end
      | inl e => ret (inl e)
      end
  end.

(** ** [send_response] *)

(** [super().send_response(...)]: the task it hands back, if any, which
    is a pending [self._send(modbus_pdu, slave_addr)]. *)
Variable super_send_response :
  Z -> Z -> Z -> Z -> list Z -> option (list Z) -> bool -> option (bytes * Z).

(** The [request] argument is ignored, as the docstring says. *)
Definition send_response (self : AsyncRTUServer)
    (slave_addr function_code request_register_addr request_register_qty : Z)
    (request_data : list Z) (values : option (list Z)) (signed : bool)
    (request : option AsyncRequest) : M unit :=
  match super_send_response slave_addr function_code request_register_addr
          request_register_qty request_data values signed with
  | Some (modbus_pdu, addr) => _send self modbus_pdu addr
  | None => ret tt
  end.

(** ** [_send_receive] *)

(** [self._validate_resp_hdr(response, slave_addr, function_code, count)],
    inherited from [CommonRTUFunctions]; it returns the payload or
    raises. *)
Variable _validate_resp_hdr : bytes -> Z -> Z -> bool -> exn + bytes.

(** The effects of a trace, as they happen in the world: a sleep takes
    its time, a read is recorded. *)
Fixpoint play (trace : list event) : M unit :=
  match trace with
  | [] => ret tt
  | EvSleep us :: trace' => sleep_us us ;; play trace'
  | e :: trace' => emit e ;; play trace'
  end.

(** [await self._uart_read()] inside a coroutine of the world. *)
Definition uart_read_io (self : AsyncRTUServer) (reads : nat -> bytes)
  : M bytes :=
  let '(response, trace) := _uart_read self reads in
  play trace ;; ret response.

(** [reads 0] is what the flushing [read()] returns; the reads of
    [_uart_read] follow it.  [modbus_pdu[0]] is evaluated when the
    arguments of [_validate_resp_hdr] are, after the response is read. *)
Definition _send_receive (self : AsyncRTUServer) (slave_addr : Z)
    (modbus_pdu : bytes) (count : bool) (reads : nat -> bytes)
  : M (exn + bytes) :=
  emit (EvRead (reads 0%nat)) ;;
  _send self modbus_pdu slave_addr ;;
  response <- uart_read_io self (fun k => reads (S k)) ;;
  match modbus_pdu with
  | [] => ret (inl IndexError)
  | function_code :: _ =>
      ret (_validate_resp_hdr response slave_addr (byte_val function_code)
             count)
  end.

(** ** [_uart_read], on a line that may fall silent *)

(** [await self._uart_reader.read()] suspends the coroutine until the
    stream has data, which is why [_uart_read_frame] races the same call
    against a timeout.  [_uart_read] awaits it as it is.  Here [reads k]
    is [Some data] when the [k]-th read completes with [data] and [None]
    when nothing arrives for it any more; the result is [None] when the
    coroutine never returns. *)
Fixpoint uart_read_await_loop (self : AsyncRTUServer)
    (reads : nat -> option bytes) (iters : list nat) (k : nat)
    (response : bytes) (trace : list event)
  : option (bytes * list event) :=
  match iters with
  | [] => Some (response, trace)
  | _ :: iters' =>
      match reads k with
      | None => None
      | Some data =>
          let response := response ++ data in
          if _exit_read response
          then Some (response, trace ++ [EvRead data])
          else uart_read_await_loop self reads iters' (S k) response
                 (trace ++ [EvRead data; EvSleep (_t35chars self)])
      end
  end.

Definition _uart_read_await (self : AsyncRTUServer)
    (reads : nat -> option bytes) : option (bytes * list event) :=
  uart_read_await_loop self reads (range 1 40) 0%nat [] [].

End Methods.

End RTU.

(** * Parts of the repository that are not among the sources

    [umodbus/serial.py] (the RTU framing helpers behind
    [CommonRTUFunctions]) and [umodbus/tcp.py] (the TCP host that
    [tests/test_tcp_example.py] drives) are described by the specification
    only.  The definitions of this module follow its wording. *)

Module Described.

(** The byte with the given value, as [struct.pack('B', v)] builds it. *)
Definition byte_of_Z (v : Z) : byte :=
  match Byte.of_N (Z.to_N (v mod 256)) with
  | Some b => b
  | None => x00
  end.

(** Modelled from the spec: the CRC-16 engine of [umodbus/functions.py]
    is missing; section 4.2 gives polynomial mask 0xA001, 8 shifts per
    byte and seed 0xFFFF. *)
Definition crc16_shift (crc : Z) : Z :=
  if Z.testbit crc 0
  then Z.lxor (Z.shiftr crc 1) 0xA001
  else Z.shiftr crc 1.

(** Modelled from the spec: one byte of the missing CRC-16 engine
    (section 4.2): the byte is folded into the low half, then 8 shifts. *)
Definition crc16_byte (crc : Z) (b : byte) : Z :=
  Nat.iter 8 crc16_shift (Z.lxor crc (byte_val b)).

(** Modelled from the spec: [crc16(bytes) -> u16] of the missing CRC-16
    engine (section 4.2). *)
Definition crc16 (data : bytes) : Z := fold_left crc16_byte data 0xFFFF.

(** Modelled from the spec: the CRC as it stands on the wire, which the
    missing RTU framer appends; section 3 has it little-endian. *)
Definition crc_bytes (data : bytes) : bytes :=
  let crc := crc16 data in
  [byte_of_Z (Z.land crc 0xFF); byte_of_Z (Z.shiftr crc 8)].

(** Modelled from the spec: [CommonRTUFunctions._form_serial_pdu] is
    missing; section 4.3 has the RTU [wrap] put the unit address before the
    PDU and the little-endian CRC16 after it. *)
Definition form_serial_pdu (modbus_pdu : bytes) (slave_addr : Z) : bytes :=
  let body := byte_of_Z slave_addr :: modbus_pdu in
  body ++ crc_bytes body.

(** Modelled from the spec: membership of a unit address in the
    responder's configured address list, which the missing
    [CommonRTUFunctions._parse_request] tests (section 4.6).  Without a
    list no address is configured. *)
Definition configured (unit_addr : Z) (unit_addr_list : option (list Z))
  : bool :=
  match unit_addr_list with
  | Some l => existsb (Z.eqb unit_addr) l
  | None => false
  end.

(** Modelled from the spec: [CommonRTUFunctions._parse_request] is
    missing.  Sections 4.3 and 4.6: the RTU [unwrap] verifies the CRC and
    strips it, and a frame with a bad CRC or with a unit address outside
    the configured list is dropped, which the caller sees as [None]. *)
Definition parse_request (req : bytes) (unit_addr_list : option (list Z))
  : option bytes :=
  match req with
  | [] => None
  | addr :: _ =>
      if configured (byte_val addr) unit_addr_list
      then
        let n := (length req - 2)%nat in
        let req_no_crc := firstn n req in
        let req_crc := skipn n req in
        if (2 <? Z.of_nat (length req))
           && if list_eq_dec Byte.byte_eq_dec req_crc (crc_bytes req_no_crc)
              then true else false
        then Some req_no_crc
        else None
      else None
  end.

(** ** The TCP host *)

(** Modelled from the spec: the framing errors of the missing framers
    (section 7). *)
Inductive FrameError : Type :=
| TruncatedFrame
| MalformedMBAP.

(** Modelled from the spec: the errors the missing TCP host surfaces to
    its caller (sections 4.4 and 7). *)
Inductive HostError : Type :=
| UnexpectedTransaction
| ProtocolViolation
| RemoteException (code : Z)
| Timeout
| Frame (e : FrameError).

(** Modelled from the spec: the big-endian 16-bit fields of the MBAP
    header that the missing TCP framer reads and writes (section 6). *)
Definition be16 (hi lo : byte) : Z := byte_val hi * 256 + byte_val lo.

(** Modelled from the spec: a 16-bit field of the MBAP header as the
    missing TCP framer writes it, big-endian (section 6). *)
Definition be16_bytes (v : Z) : bytes :=
  [byte_of_Z (Z.shiftr v 8); byte_of_Z (Z.land v 0xFF)].

(** Modelled from the spec: the PDU of the missing codec, a function
    code and a payload (section 3). *)
Record PDU : Type := {
  function_code : Z;
  payload : bytes
}.

(** Modelled from the spec: the PDU of the missing codec on the wire,
    the function code first (section 3). *)
Definition pdu_bytes (p : PDU) : bytes :=
  byte_of_Z (function_code p) :: payload p.

(** Modelled from the spec: the TCP framer's [unwrap] of the missing
    [umodbus/tcp.py] (sections 3, 4.3 and 6): a 7-byte MBAP header and a
    PDU; the protocol id must be 0 and the length field must be the size of
    unit id and PDU; the transaction id is handed on for the host to
    check.  The result is unit address, PDU and transaction id. *)
Definition unwrap (wire : bytes) : FrameError + (Z * PDU * Z) :=
  match wire with
  | t1 :: t0 :: p1 :: p0 :: l1 :: l0 :: u :: fc :: data =>
      if negb (be16 p1 p0 =? 0) then inl MalformedMBAP
      else if negb (be16 l1 l0 =? 2 + Z.of_nat (length data))
      then inl MalformedMBAP
      else inr (byte_val u,
                {| function_code := byte_val fc; payload := data |},
                be16 t1 t0)
  | _ => inl TruncatedFrame
  end.

(** Modelled from the spec: the state of the missing TCP host, its
    16-bit transaction counter (section 3); the test reads and sets it as
    [trans_id_ctr]. *)
Record Host : Type := {
  trans_id_ctr : Z
}.

(** Modelled from the spec: [TCP._create_mbap_hdr] is missing.  Section
    4.4, step 2, and section 3: the header carries the current value of the
    counter, protocol id 0, the length of unit id and PDU, and the unit
    id; the counter then advances and wraps at 65536.  The test expects the
    pair of header and transaction id. *)
Definition _create_mbap_hdr (slave_addr : Z) (modbus_pdu : bytes) (h : Host)
  : (bytes * Z) * Host :=
  let tid := trans_id_ctr h in
  let hdr := be16_bytes tid ++ be16_bytes 0
             ++ be16_bytes (Z.of_nat (length modbus_pdu) + 1)
             ++ [byte_of_Z slave_addr] in
  ((hdr, tid), {| trans_id_ctr := (tid + 1) mod 65536 |}).

(** Modelled from the spec: [TCP._validate_resp_hdr] is missing.  Section
    4.4, step 5: the transaction id must be the one issued, else
    [UnexpectedTransaction]; the unit address must be the requested one;
    the function code must be the request's, or the request's with bit 7
    set, which is a [RemoteException] with the code that follows; anything
    else is a [ProtocolViolation].  The payload after the function code is
    returned, as the test expects.  The host is threaded through to show
    what the validation does to it. *)
Definition _validate_resp_hdr (response : bytes) (tid slave_addr fc : Z)
    (h : Host) : (HostError + bytes) * Host :=
  match unwrap response with
  | inl e => (inl (Frame e), h)
  | inr (unit_addr, pdu, rec_tid) =>
      if negb (rec_tid =? tid) then (inl UnexpectedTransaction, h)
      else if negb (unit_addr =? slave_addr) then (inl ProtocolViolation, h)
      else if function_code pdu =? fc then (inr (payload pdu), h)
      else if function_code pdu =? Z.lor fc 0x80
      then match payload pdu with
           | code :: _ => (inl (RemoteException (byte_val code)), h)
           | [] => (inl (Frame TruncatedFrame), h)
           end
      else (inl ProtocolViolation, h)
  end.

(** Modelled from the spec: the byte-stream collaborator of the missing
    TCP host (section 6): what was written, and what each read will return
    ([None]: nothing within the timeout). *)
Record transport : Type := {
  written : list bytes;
  readable : list (option bytes)
}.

(** Modelled from the spec: the host engine's [request] of the missing
    [umodbus/tcp.py], section 4.4, steps 2 to 5, for request fields that
    are already encoded: allocate the transaction id, wrap, write, read one
    response, validate.  There is no retry. *)
Definition request (unit_addr : Z) (pdu : PDU) (h : Host) (tr : transport)
  : (HostError + bytes) * Host * transport :=
  let modbus_pdu := pdu_bytes pdu in
  let '((hdr, tid), h1) := _create_mbap_hdr unit_addr modbus_pdu h in
  let tr1 := {| written := written tr ++ [hdr ++ modbus_pdu];
                readable := readable tr |} in
  match readable tr1 with
  | [] | None :: _ =>
      (inl Timeout, h1,
       {| written := written tr1; readable := tl (readable tr1) |})
  | Some response :: rest =>
      let '(res, h2) :=
        _validate_resp_hdr response tid unit_addr (function_code pdu) h1 in
      (res, h2, {| written := written tr1; readable := rest |})
  end.

End Described.

(** * Notions used to state the properties *)

Module Scenario.

Import RTU.

(** A fast line next to the default one, with a direction pin. *)
Definition fast_config : config :=
  {| uart_id := 1; baudrate := 115200; data_bits := 8; stop_bits := 1;
     parity := None; pins := Some (25, 26); ctrl_pin := Some 12 |}.

(** The servers the two configurations build. *)
Definition slow_server : AsyncRTUServer :=
  {| _ctrlPin := None; _t1char := 1145; _t35chars := 4010 |}.

Definition fast_server : AsyncRTUServer :=
  {| _ctrlPin := Some 12; _t1char := 95; _t35chars := 1750 |}.

(** The bytes of a sequence of arrivals. *)
Definition chunks (l : list arrival) : bytes := concat (map snd l).



(** What the first [n] reads of [_uart_read] deliver, taken together;
    [span] starts at read [k]. *)
Definition span (reads : nat -> bytes) (k n : nat) : bytes :=
  concat (map reads (seq k n)).

Definition prefix (reads : nat -> bytes) (n : nat) : bytes := span reads 0 n.

(** [n] read attempts from read [k] on that did not complete a frame:
    each is followed by a sleep of the silence interval. *)
Definition attempts (self : AsyncRTUServer) (reads : nat -> bytes)
    (k n : nat) : list event :=
  flat_map (fun i => [EvRead (reads i); EvSleep (_t35chars self)]) (seq k n).

(** Modelled from the spec: the exception response that the missing
    [send_exception_response] of [umodbus/serial.py] sends through
    [_send]; section 4.1 gives its PDU as the function code with bit 7 set,
    followed by the exception code. *)
Definition exception_task (slave_addr function_code exception_code : Z)
  : option (bytes * Z) :=
  Some ([Described.byte_of_Z (Z.lor function_code 0x80);
         Described.byte_of_Z exception_code], slave_addr).

(** A request constructor to run [get_request] with: it takes requests
    for function code 3, and raises exception code 1 for any other. *)
Definition holding_only (self : AsyncRTUServer) (data : bytes)
  : exn + bytes :=
  match data with
  | _ :: fc :: _ =>
      if byte_val fc =? 3 then inr data
      else inl (ModbusException (byte_val fc) 1)
  | _ => inl IndexError
  end.

(** An idle world. *)
Definition idle : world :=
  {| clock := 5; ticks_period := 11; latency := [3; 0; 4; 1]%N; log := [] |}.

(** The chunks at the head of [l] that come with gaps below [t], and what
    is left when the first gap of [t] or more has run out. *)
Fixpoint burst_of (t : Z) (l : list arrival) : list arrival :=
  match l with
  | [] => []
  | (delay, data) :: l' =>
      if delay <? t then (delay, data) :: burst_of t l' else []
  end.

Fixpoint after_burst (t : Z) (l : list arrival) : list arrival :=
  match l with
  | [] => []
  | (delay, data) :: l' =>
      if delay <? t then after_burst t l' else (delay - t, data) :: l'
  end.

(** The time slept, the sleeps and the reads of a trace. *)
Fixpoint slept (l : list event) : Z :=
  match l with
  | [] => 0
  | EvSleep us :: l' => us + slept l'
  | _ :: l' => slept l'
  end.

Fixpoint sleeps (l : list event) : nat :=
  match l with
  | [] => 0
  | EvSleep _ :: l' => S (sleeps l')
  | _ :: l' => sleeps l'
  end.

Fixpoint reads_made (l : list event) : nat :=
  match l with
  | [] => 0
  | EvRead _ :: l' => S (reads_made l')
  | _ :: l' => reads_made l'
  end.

(** The level the direction pin was last set to; [level] before any. *)
Fixpoint last_pin (l : list event) (level : Z) : Z :=
  match l with
  | [] => level
  | EvPin _ v :: l' => last_pin l' v
  | _ :: l' => last_pin l' level
  end.

(** The driver is off: the pin was last set to 0, or never set. *)
Definition driver_off (w : world) : Prop :=
  last_pin (effects (log w)) 0 = 0.

(** A header validation to run [_send_receive] with: it takes a response
    of unit address and function code as requested and drops these two
    bytes. *)
Definition plain_validate (response : bytes) (slave_addr function_code : Z)
    (count : bool) : exn + bytes :=
  match response with
  | a :: fc :: rest =>
      if (byte_val a =? slave_addr) && (byte_val fc =? function_code)
      then inr rest else inl (OtherError 1)
  | _ => inl (OtherError 0)
  end.

(** A response task to run [send_response] with: it echoes the request
    data as the PDU. *)
Definition echo_task (slave_addr function_code request_register_addr
    request_register_qty : Z) (request_data : list Z)
    (values : option (list Z)) (signed : bool) : option (bytes * Z) :=
  Some (Described.byte_of_Z function_code
          :: map Described.byte_of_Z request_data, slave_addr).

(** What [_send] does, in order, for a framed PDU and the hold it
    computes. *)
Definition send_trace (self : AsyncRTUServer) (serial_pdu : bytes)
    (hold : Z) : list event :=
  match _ctrlPin self with
  | Some pin =>
      [EvPin pin 1; EvSleep 1000; EvWrite serial_pdu; EvDrain;
       EvSleep hold; EvPin pin 0]
  | None => [EvWrite serial_pdu; EvDrain]
  end.

End Scenario.

(** * Properties *)

Import RTU Scenario.

(** ** The constructor *)

Section Constructor.

Variable c : config.
Variable self : AsyncRTUServer.
Hypothesis built : init c = inr self.

(** The constructor returns only for a configuration with pins and a
    baudrate other than zero, and then fills the three attributes. *)
Lemma init_inv :
  pins c <> None /\ baudrate c <> 0 /\
  _ctrlPin self = ctrl_pin c /\
  _t1char self = (1000000 * (data_bits c + stop_bits c + 2)) / baudrate c /\
  _t35chars self =
    (if baudrate c <=? 19200
     then (3500000 * (data_bits c + stop_bits c + 2)) / baudrate c
     else 1750).
Proof.
  revert built. unfold init.
  destruct (pins c) as [p|]; [|discriminate].
  destruct (Z.eqb_spec (baudrate c) 0) as [E|E]; [discriminate|].
  intros H. injection H as <-. cbn.
  repeat split; try congruence.
  destruct (ctrl_pin c); reflexivity.
Qed.

End Constructor.

(** C6.  Whenever the constructor accepts its arguments, the character
    time [_t1char] is [1_000_000 * (data_bits + stop_bits + 2)] divided by
    the baudrate, in integer (floor) arithmetic. *)
Theorem t1char_formula (c : config) (self : AsyncRTUServer) :
  init c = inr self ->
  _t1char self = (1000000 * (data_bits c + stop_bits c + 2)) / baudrate c.
Proof. intros H. apply (init_inv c self H). Qed.

Lemma t1char_formula_witness :
  init default_config = inr slow_server
  /\ 1145 = (1000000 * (8 + 1 + 2)) / 9600.
Proof.
  split; [reflexivity|].
  exact (t1char_formula default_config slow_server eq_refl).
Defined.

(** C5.  Whenever the constructor accepts its arguments, the inter-frame
    silence [_t35chars] is [3_500_000 * (data_bits + stop_bits + 2)]
    divided by the baudrate when the baudrate is at most 19200, and the
    fixed 1750 microseconds when it is above. *)
Theorem t35chars_formula (c : config) (self : AsyncRTUServer) :
  init c = inr self ->
  (baudrate c <= 19200 ->
   _t35chars self
     = (3500000 * (data_bits c + stop_bits c + 2)) / baudrate c) /\
  (19200 < baudrate c -> _t35chars self = 1750).
Proof.
  intros H. destruct (init_inv c self H) as (_ & _ & _ & _ & E).
  rewrite E. destruct (Z.leb_spec (baudrate c) 19200); split; intros; lia.
Qed.

Lemma t35chars_formula_witness :
  (init default_config = inr slow_server /\
   4010 = (3500000 * (8 + 1 + 2)) / 9600) /\
  (init fast_config = inr fast_server /\ _t35chars fast_server = 1750).
Proof.
  split; (split; [reflexivity|]).
  - exact (proj1 (t35chars_formula default_config slow_server eq_refl)
             ltac:(cbn; lia)).
  - exact (proj2 (t35chars_formula fast_config fast_server eq_refl)
             ltac:(cbn; lia)).
Defined.

(** The constructor refuses a zero baudrate and missing pins. *)
Example init_zero_baudrate :
  init {| uart_id := 1; baudrate := 0; data_bits := 8; stop_bits := 1;
          parity := None; pins := Some (25, 26); ctrl_pin := None |}
  = inl ZeroDivisionError.
Proof. reflexivity. Qed.

Example init_without_pins :
  init {| uart_id := 1; baudrate := 9600; data_bits := 8; stop_bits := 1;
          parity := None; pins := None; ctrl_pin := None |}
  = inl TypeError.
Proof. reflexivity. Qed.

(** X3.  On a slow line the silence is 3.5 character times up to the
    rounding of the two floor divisions: twice [_t35chars] lies between
    [7 * _t1char - 1] and [7 * _t1char + 6]. *)
Lemma t35chars_vs_t1char (c : config) (self : AsyncRTUServer) :
  init c = inr self -> 0 < baudrate c <= 19200 ->
  7 * _t1char self - 1 <= 2 * _t35chars self <= 7 * _t1char self + 6.
Proof.
  intros H [Hpos Hle].
  destruct (init_inv c self H) as (_ & _ & _ & E1 & E35).
  rewrite E1, E35.
  destruct (Z.leb_spec (baudrate c) 19200); [|lia].
  set (k := data_bits c + stop_bits c + 2).
  set (b := baudrate c) in *.
  pose proof (Z.div_mod (1000000 * k) b ltac:(lia)) as D1.
  pose proof (Z.mod_pos_bound (1000000 * k) b Hpos) as B1.
  pose proof (Z.div_mod (3500000 * k) b ltac:(lia)) as D2.
  pose proof (Z.mod_pos_bound (3500000 * k) b Hpos) as B2.
  set (q1 := (1000000 * k) / b) in *. set (r1 := (1000000 * k) mod b) in *.
  set (q2 := (3500000 * k) / b) in *. set (r2 := (3500000 * k) mod b) in *.
  assert (E : b * (2 * q2 - 7 * q1) = 7 * r1 - 2 * r2) by lia.
  split.
  - assert (-2 < 2 * q2 - 7 * q1) by nia. lia.
  - assert (2 * q2 - 7 * q1 < 7) by nia. lia.
Qed.

(** ** [_uart_read_frame] *)

Section ReadFrame.

Variable ft : Z.

(** One turn of the loop is one [wait_for]: data extends the buffer and
    switches to the frame timeout, [TimeoutError] ends the call. *)
Lemma read_loop_step (ct : Z) (rx : list arrival) (received : bytes)
    (waited : list Z) :
  read_loop ft ct rx received waited =
  match wait_for_read ct rx with
  | (Data data, rest) =>
      read_loop ft ft rest (received ++ data) (waited ++ [ct])
  | (TimeoutError, rest) =>
      {| received_bytes := received; waits := waited ++ [ct];
         pending := rest |}
  end.
Proof.
  destruct rx as [|[delay data] rest]; cbn; [reflexivity|].
  destruct (delay <? ct); reflexivity.
Qed.




(** On the frame timeout the loop takes the burst at the head of what
    arrives, and one wait more. *)
Lemma read_loop_takes_burst (l : list arrival) :
  forall received waited,
    read_loop ft ft l received waited =
    {| received_bytes := received ++ chunks (burst_of ft l);
       waits := waited ++ repeat ft (S (length (burst_of ft l)));
       pending := after_burst ft l |}.
Proof.
  induction l as [|[delay data] l IH]; intros received waited.
  - cbn. now rewrite app_nil_r.
  - cbn [read_loop burst_of after_burst]. destruct (delay <? ft).
    + rewrite IH. unfold chunks. cbn [map snd concat length repeat].
      now rewrite <- !app_assoc.
    + cbn. now rewrite app_nil_r.
Qed.

End ReadFrame.








(** At 9600 baud the default is 8020 microseconds, not milliseconds: a
    first chunk that takes 9 ms to come is missed. *)
Example default_timeout_is_short :
  _uart_read_frame slow_server None [(9000, [x0a; x03])]
  = {| received_bytes := []; waits := [8020];
       pending := [(980, [x0a; x03])] |}.
Proof. reflexivity. Qed.

(** ** [_uart_read] *)

Section UartRead.

Variable _exit_read : bytes -> bool.
Variable self : AsyncRTUServer.
Variable reads : nat -> bytes.

Lemma span_S (k n : nat) :
  span reads k (S n) = reads k ++ span reads (S k) n.
Proof. reflexivity. Qed.

Lemma attempts_S (k n : nat) :
  attempts self reads k (S n)
  = EvRead (reads k) :: EvSleep (_t35chars self)
    :: attempts self reads (S k) n.
Proof. reflexivity. Qed.

(** The loop stops at the first attempt that completes a frame, or when
    the attempts are used up; either way it has read one chunk per
    attempt made and slept after each attempt that did not stop it. *)
Lemma uart_read_loop_spec (iters : list nat) :
  forall (k : nat) (response : bytes) (trace : list event),
  exists n : nat,
    fst (uart_read_loop _exit_read self reads iters k response trace)
      = response ++ span reads k n /\
    ((1 <= n <= length iters)%nat /\
     (forall m, (1 <= m < n)%nat ->
                _exit_read (response ++ span reads k m) = false) /\
     _exit_read (response ++ span reads k n) = true /\
     snd (uart_read_loop _exit_read self reads iters k response trace)
       = trace ++ attempts self reads k (n - 1)
         ++ [EvRead (reads (k + (n - 1))%nat)]
     \/
     n = length iters /\
     (forall m, (1 <= m <= n)%nat ->
                _exit_read (response ++ span reads k m) = false) /\
     snd (uart_read_loop _exit_read self reads iters k response trace)
       = trace ++ attempts self reads k n).
Proof.
  induction iters as [|i iters IH]; intros k response trace.
  - exists 0%nat. cbn. rewrite !app_nil_r. split; [reflexivity|].
    right. split; [reflexivity|]. split; [|reflexivity]. intros m Hm. lia.
  - cbn [uart_read_loop].
    destruct (_exit_read (response ++ reads k)) eqn:Ex.
    + exists 1%nat. cbn [fst snd]. rewrite span_S. cbn [span seq map concat].
      rewrite app_nil_r. split; [reflexivity|].
      left. cbn [length]. split; [lia|]. split; [|split].
      * intros m Hm. lia.
      * exact Ex.
      * cbn. now rewrite Nat.add_0_r.
    + destruct (IH (S k) (response ++ reads k)
                  (trace ++ [EvRead (reads k); EvSleep (_t35chars self)]))
        as (n & Hr & Hcase).
      assert (Hsplit : forall m,
                 response ++ span reads k (S m)
                 = (response ++ reads k) ++ span reads (S k) m)
        by (intros m; rewrite span_S; now rewrite app_assoc).
      assert (H1 : response ++ span reads k 1 = response ++ reads k)
        by (rewrite Hsplit; cbn; now rewrite app_nil_r).
      exists (S n). rewrite Hsplit. split; [exact Hr|].
      destruct Hcase as [(Hn & Hpre & Hex & Htr) | (Hn & Hpre & Htr)].
      * left. cbn [length]. split; [lia|]. split; [|split].
        -- intros m Hm. destruct m as [|m]; [lia|].
           destruct m as [|m]; [now rewrite H1|].
           rewrite Hsplit. apply Hpre. lia.
        -- exact Hex.
        -- rewrite Htr.
           replace (S n - 1)%nat with (S (n - 1)) by lia.
           rewrite attempts_S.
           replace (k + S (n - 1))%nat with (S k + (n - 1))%nat by lia.
           now rewrite <- app_assoc.
      * right. cbn [length]. split; [lia|]. split.
        -- intros m Hm. destruct m as [|m]; [lia|].
           destruct m as [|m]; [now rewrite H1|].
           rewrite Hsplit. apply Hpre. lia.
        -- rewrite Htr, attempts_S. now rewrite <- app_assoc.
Qed.

End UartRead.

(** When every read completes, whatever the reads return and whatever
    counts as a complete frame: [_uart_read] makes at least one and at
    most 39 read attempts, gives back the bytes of all the attempts made,
    sleeps one silence interval after every attempt that did not complete
    a frame, and stops at the first attempt after which [_exit_read]
    accepts the bytes gathered; if none does, it stops after the 39th. *)
Theorem uart_read_bounded (_exit_read : bytes -> bool)
    (self : AsyncRTUServer) (reads : nat -> bytes) :
  exists n : nat,
    (1 <= n <= 39)%nat /\
    fst (_uart_read _exit_read self reads) = prefix reads n /\
    Forall (fun m => _exit_read (prefix reads m) = false) (seq 1 (n - 1)) /\
    (_exit_read (prefix reads n) = true /\
     snd (_uart_read _exit_read self reads)
       = attempts self reads 0 (n - 1) ++ [EvRead (reads (n - 1)%nat)]
     \/
     n = 39%nat /\
     _exit_read (prefix reads n) = false /\
     snd (_uart_read _exit_read self reads) = attempts self reads 0 n).
Proof.
  unfold _uart_read, prefix.
  destruct (uart_read_loop_spec _exit_read self reads (range 1 40)
              0%nat [] []) as (n & Hr & Hcase).
  change (length (range 1 40)) with 39%nat in Hcase.
  cbn [app] in Hr, Hcase.
  exists n.
  destruct Hcase as [(Hn & Hpre & Hex & Htr) | (Hn & Hpre & Htr)].
  - split; [lia|]. split; [exact Hr|]. split.
    + apply Forall_forall. intros m Hm. apply in_seq in Hm.
      apply Hpre. lia.
    + left. split; [exact Hex|]. exact Htr.
  - subst n. split; [lia|]. split; [exact Hr|]. split.
    + apply Forall_forall. intros m Hm. apply in_seq in Hm.
      apply Hpre. lia.
    + right. split; [reflexivity|]. split; [|exact Htr]. apply Hpre. lia.
Qed.

(** With reads that all complete, the call returns what the loop over
    the completed reads computes. *)
Lemma uart_read_await_loop_complete (_exit_read : bytes -> bool)
    (self : AsyncRTUServer) (reads : nat -> bytes) (iters : list nat) :
  forall k response trace,
    uart_read_await_loop _exit_read self (fun i => Some (reads i)) iters k
      response trace
    = Some (uart_read_loop _exit_read self reads iters k response trace).
Proof.
  induction iters as [|i iters IH]; intros k response trace;
    [reflexivity|].
  cbn [uart_read_await_loop uart_read_loop].
  destruct (_exit_read (response ++ reads k)); [reflexivity|apply IH].
Qed.

(** The call does not return when a read that it makes never completes:
    read [n], after [n] reads that did not complete a frame. *)
Lemma uart_read_await_loop_blocked (_exit_read : bytes -> bool)
    (self : AsyncRTUServer) (reads : nat -> option bytes) (data : nat -> bytes)
    (n : nat) :
  forall iters k response trace,
    (n < length iters)%nat ->
    (forall i, (i < n)%nat -> reads (k + i)%nat = Some (data (k + i)%nat)) ->
    (forall m, (1 <= m <= n)%nat ->
               _exit_read (response ++ span data k m) = false) ->
    reads (k + n)%nat = None ->
    uart_read_await_loop _exit_read self reads iters k response trace = None.
Proof.
  induction n as [|n IH]; intros iters k response trace Hlen Hsome Hexit Hnone.
  - destruct iters as [|i iters]; [cbn in Hlen; lia|].
    cbn [uart_read_await_loop]. rewrite Nat.add_0_r in Hnone.
    now rewrite Hnone.
  - destruct iters as [|i iters]; [cbn in Hlen; lia|].
    cbn [uart_read_await_loop].
    pose proof (Hsome 0%nat ltac:(lia)) as H0.
    rewrite Nat.add_0_r in H0. rewrite H0.
    pose proof (Hexit 1%nat ltac:(lia)) as H1.
    rewrite span_S in H1. cbn [span seq map concat] in H1.
    rewrite app_nil_r in H1. rewrite H1.
    apply IH.
    + cbn in Hlen. lia.
    + intros j Hj. replace (S k + j)%nat with (k + S j)%nat by lia.
      apply Hsome. lia.
    + intros m Hm. rewrite <- app_assoc, <- span_S. apply Hexit. lia.
    + replace (S k + n)%nat with (k + S n)%nat by lia. exact Hnone.
Qed.

(** C7.  The bound of 39 read attempts does not make [_uart_read]
    return on every line.  When every read completes it returns what the
    bounded loop computes: at most 39 reads, the early exit at the first
    complete frame, all bytes read.  But each read is awaited without a
    timeout: on a line where nothing arrives the first read never
    completes and the call never returns, and the same holds when the line
    falls silent after a part of a frame. *)
Theorem uart_read_blocks_on_silence (_exit_read : bytes -> bool)
    (self : AsyncRTUServer) :
  _uart_read_await _exit_read self (fun _ => None) = None
  /\
  (forall reads : nat -> bytes,
     _uart_read_await _exit_read self (fun k => Some (reads k))
     = Some (_uart_read _exit_read self reads))
  /\
  (forall (reads : nat -> option bytes) (part : bytes),
     reads 0%nat = Some part ->
     _exit_read part = false ->
     reads 1%nat = None ->
     _uart_read_await _exit_read self reads = None).
Proof.
  split; [reflexivity|]. split.
  - intros reads. unfold _uart_read_await, _uart_read.
    apply uart_read_await_loop_complete.
  - intros reads part H0 Hexit H1. unfold _uart_read_await.
    apply (uart_read_await_loop_blocked _exit_read self reads
             (fun _ => part) 1).
    + cbn. lia.
    + intros i Hi. assert (i = 0%nat) as -> by lia. exact H0.
    + intros m Hm. assert (m = 1%nat) as -> by lia.
      cbn. now rewrite app_nil_r.
    + exact H1.
Qed.

Lemma uart_read_blocks_on_silence_witness :
  _uart_read_await (fun r => 5 <=? Z.of_nat (length r)) slow_server
    (fun k => match k with
              | O => Some [x0a; x03; x02]
              | S _ => None
              end)
  = None.
Proof.
  exact (proj2 (proj2 (uart_read_blocks_on_silence
                         (fun r => 5 <=? Z.of_nat (length r)) slow_server))
           (fun k => match k with
                     | O => Some [x0a; x03; x02]
                     | S _ => None
                     end)
           [x0a; x03; x02] eq_refl eq_refl eq_refl).
Defined.

(** The same line with the rest of the frame arriving: the call returns
    the frame. *)
Example uart_read_await_run :
  _uart_read_await (fun r => 5 <=? Z.of_nat (length r)) slow_server
    (fun k => match k with
              | O => Some [x0a; x03; x02]
              | 1%nat => Some [x00; x13]
              | _ => None
              end)
  = Some ([x0a; x03; x02; x00; x13],
          [EvRead [x0a; x03; x02]; EvSleep 4010; EvRead [x00; x13]]).
Proof. reflexivity. Qed.

(** ** [_send] *)

(** The hold computed from two readings of a wrapping clock is never too
    short: between the readings the clock went from [c1] to [c3]. *)
Lemma hold_covers_frame (P c1 c3 T : Z) :
  0 < P -> c1 <= c3 ->
  c1 + T <= c3 + Z.max 0 (c1 mod P + T - c3 mod P).
Proof.
  intros HP Hle.
  pose proof (Z.div_mod c1 P ltac:(lia)) as E1.
  pose proof (Z.div_mod c3 P ltac:(lia)) as E3.
  pose proof (Z.div_le_mono c1 c3 P HP Hle) as Hq.
  assert (P * (c1 / P) <= P * (c3 / P))
    by (apply Z.mul_le_mono_nonneg_l; lia).
  lia.
Qed.

Ltac run_send H :=
  unfold _send; rewrite H;
  cbv beta delta [bind pin_call sleep_us uart_write uart_drain ticks_us
                  emit elapse ret];
  cbn [fst snd clock latency log ticks_period].

(** C4.  With a direction pin configured, [_send] sets the pin to 1
    before it writes, lets at least 1000 microseconds pass between that and
    the write, and sets the pin to 0 no earlier than [_t1char] times the
    number of bytes of the frame after the start of the transmission, which
    is the moment of the write.  Between the two pin changes it does
    nothing but sleep, write and drain. *)
Theorem send_pin_timing (_form_serial_pdu : bytes -> Z -> bytes)
    (self : AsyncRTUServer) (pin : Z) (modbus_pdu : bytes) (slave_addr : Z)
    (w : world) :
  _ctrlPin self = Some pin ->
  let serial_pdu := _form_serial_pdu modbus_pdu slave_addr in
  exists t_on t_write t_drain t_hold t_off hold : Z,
    log (snd (_send _form_serial_pdu self modbus_pdu slave_addr w))
      = log w ++ [(t_on, EvPin pin 1); (t_on, EvSleep 1000);
                  (t_write, EvWrite serial_pdu); (t_drain, EvDrain);
                  (t_hold, EvSleep hold); (t_off, EvPin pin 0)] /\
    t_on = clock w /\
    t_on + 1000 <= t_write /\
    t_write <= t_drain <= t_hold /\
    t_write + _t1char self * Z.of_nat (length serial_pdu) <= t_off.
Proof.
  intros H serial_pdu. subst serial_pdu. run_send H.
  set (frame := _form_serial_pdu modbus_pdu slave_addr).
  set (l1 := Z.of_N (hd 0%N (latency w))).
  set (l2 := Z.of_N (hd 0%N (tl (latency w)))).
  set (l3 := Z.of_N (hd 0%N (tl (tl (latency w))))).
  set (l4 := Z.of_N (hd 0%N (tl (tl (tl (latency w)))))).
  assert (0 <= l1 /\ 0 <= l2 /\ 0 <= l3 /\ 0 <= l4) as (P1 & P2 & P3 & P4)
    by (subst l1 l2 l3 l4; lia).
  set (P := Z.pos (ticks_period w)).
  set (c1 := clock w + Z.max 0 1000 + l1).
  set (c3 := c1 + 0 + l2 + 0 + l3).
  set (T := _t1char self * Z.of_nat (length frame)).
  exists (clock w), c1, (c1 + 0 + l2), c3.
  exists (c3 + Z.max 0 (c1 mod P + T - c3 mod P) + l4).
  exists (c1 mod P + T - c3 mod P).
  split; [now rewrite <- !app_assoc|].
  pose proof (hold_covers_frame P c1 c3 T ltac:(subst P; lia)
                ltac:(subst c3; lia)).
  subst c1 c3. repeat split; lia.
Qed.

Lemma send_pin_timing_witness :
  exists t_on t_write t_drain t_hold t_off hold : Z,
    log (snd (_send Described.form_serial_pdu fast_server [x03; x00] 10
                {| clock := 5; ticks_period := 11;
                   latency := [3; 0; 4; 1]%N; log := [] |}))
      = [] ++ [(t_on, EvPin 12 1); (t_on, EvSleep 1000);
               (t_write,
                EvWrite (Described.form_serial_pdu [x03; x00] 10));
               (t_drain, EvDrain);
               (t_hold, EvSleep hold); (t_off, EvPin 12 0)] /\
    t_on = 5 /\
    t_on + 1000 <= t_write /\
    t_write <= t_drain <= t_hold /\
    t_write + 95 * Z.of_nat (length (Described.form_serial_pdu [x03; x00] 10))
      <= t_off.
Proof.
  exact (send_pin_timing Described.form_serial_pdu fast_server 12
           [x03; x00] 10
           {| clock := 5; ticks_period := 11; latency := [3; 0; 4; 1]%N;
              log := [] |} eq_refl).
Defined.

(** The run of the witness, in full: the clock wraps between the two
    readings, so the hold is longer than the frame needs. *)
Example send_with_pin_run :
  log (snd (_send Described.form_serial_pdu fast_server [x03; x00] 10
              {| clock := 5; ticks_period := 11;
                 latency := [3; 0; 4; 1]%N; log := [] |}))
  = [(5, EvPin 12 1); (5, EvSleep 1000);
     (1008, EvWrite [x0a; x03; x00; x51; x32]); (1008, EvDrain);
     (1012, EvSleep 482); (1495, EvPin 12 0)].
Proof. reflexivity. Qed.

(** C10.  Without a direction pin, [_send] writes the framed PDU and
    drains, and does nothing else: no pin is set and nothing sleeps. *)
Theorem send_without_pin (_form_serial_pdu : bytes -> Z -> bytes)
    (self : AsyncRTUServer) (modbus_pdu : bytes) (slave_addr : Z)
    (w : world) :
  _ctrlPin self = None ->
  exists t_drain : Z,
    log (snd (_send _form_serial_pdu self modbus_pdu slave_addr w))
      = log w ++ [(clock w,
                   EvWrite (_form_serial_pdu modbus_pdu slave_addr));
                  (t_drain, EvDrain)] /\
    clock w <= t_drain.
Proof.
  intros H. run_send H.
  exists (clock w + 0 + Z.of_N (hd 0%N (latency w))).
  split; [now rewrite <- !app_assoc|lia].
Qed.

Lemma send_without_pin_witness :
  exists t_drain : Z,
    log (snd (_send Described.form_serial_pdu slow_server [x03; x00] 10
                {| clock := 5; ticks_period := 11;
                   latency := [3; 0; 4; 1]%N; log := [] |}))
      = [] ++ [(5, EvWrite (Described.form_serial_pdu [x03; x00] 10));
               (t_drain, EvDrain)] /\
    5 <= t_drain.
Proof.
  exact (send_without_pin Described.form_serial_pdu slow_server
           [x03; x00] 10
           {| clock := 5; ticks_period := 11; latency := [3; 0; 4; 1]%N;
              log := [] |} eq_refl).
Defined.

Example no_pin_run :
  effects
    (log (snd (_send Described.form_serial_pdu slow_server [x03; x00] 10
                 {| clock := 5; ticks_period := 11;
                    latency := [3; 0; 4; 1]%N; log := [] |})))
  = [EvWrite [x0a; x03; x00; x51; x32]; EvDrain].
Proof. reflexivity. Qed.

(** ** [get_request] *)

Section GetRequest.

Variable _form_serial_pdu : bytes -> Z -> bytes.
Variable _parse_request : bytes -> option (list Z) -> option bytes.
Variable super_send_exception_response : Z -> Z -> Z -> option (bytes * Z).
Variable AsyncRequest : Type.
Variable new_AsyncRequest : AsyncRTUServer -> bytes -> exn + AsyncRequest.

(** A frame that [_parse_request] turns down ends the call at once: the
    result is [None] and the world is as before. *)
Lemma get_request_unparsed (self : AsyncRTUServer)
    (unit_addr_list : option (list Z)) (timeout : option Z)
    (rx : list arrival) (w : world) :
  _parse_request (received_bytes (_uart_read_frame self timeout rx))
    unit_addr_list = None ->
  get_request _form_serial_pdu _parse_request super_send_exception_response
    AsyncRequest new_AsyncRequest self unit_addr_list timeout rx w
  = (inr None, w).
Proof. intros H. unfold get_request. now rewrite H. Qed.

End GetRequest.

Lemma not_configured (addr : Z) (l : list Z) :
  ~ In addr l -> Described.configured addr (Some l) = false.
Proof.
  intros H. cbn. induction l as [|x l IH]; [reflexivity|].
  cbn. destruct (Z.eqb_spec addr x) as [->|_].
  - exfalso. apply H. now left.
  - apply IH. intros Hin. apply H. now right.
Qed.

Lemma parse_request_foreign (addr : byte) (rest : bytes) (l : list Z) :
  ~ In (byte_val addr) l ->
  Described.parse_request (addr :: rest) (Some l) = None.
Proof.
  intros H. unfold Described.parse_request.
  now rewrite (not_configured _ _ H).
Qed.

(** C3.  When the frame read starts with a unit address that is not in
    the configured address list, [get_request] returns [None] without an
    exception and leaves the world as it was: nothing is written to the
    UART, no response and no exception response, and no pin is touched. *)
Theorem foreign_frame_dropped (_form_serial_pdu : bytes -> Z -> bytes)
    (super_send_exception_response : Z -> Z -> Z -> option (bytes * Z))
    (AsyncRequest : Type)
    (new_AsyncRequest : AsyncRTUServer -> bytes -> exn + AsyncRequest)
    (self : AsyncRTUServer) (l : list Z) (timeout : option Z)
    (rx : list arrival) (w : world) (addr : byte) (rest : bytes) :
  received_bytes (_uart_read_frame self timeout rx) = addr :: rest ->
  ~ In (byte_val addr) l ->
  get_request _form_serial_pdu Described.parse_request
    super_send_exception_response AsyncRequest new_AsyncRequest
    self (Some l) timeout rx w
  = (inr None, w).
Proof.
  intros Hreq Hnot. apply get_request_unparsed.
  rewrite Hreq. now apply parse_request_foreign.
Qed.

Lemma foreign_frame_dropped_witness :
  get_request Described.form_serial_pdu Described.parse_request
    exception_task bytes holding_only
    fast_server (Some [10]) (Some 120000)
    [(300, [x0b; x07; x00; x00; x00; x01; x75; x60])] idle
  = (inr None, idle).
Proof.
  apply (foreign_frame_dropped Described.form_serial_pdu exception_task
           bytes holding_only fast_server [10] (Some 120000)
           [(300, [x0b; x07; x00; x00; x00; x01; x75; x60])] idle
           x0b [x07; x00; x00; x00; x01; x75; x60]).
  - reflexivity.
  - cbn. intros [H|[]]. discriminate H.
Defined.

(** The same request to the responder's own address is answered: with
    the request object when it is well formed, with an exception response
    on the wire when the constructor raises [ModbusException]. *)
Example own_frame_accepted :
  get_request Described.form_serial_pdu Described.parse_request
    exception_task bytes holding_only
    fast_server (Some [10]) (Some 120000)
    [(300, Described.form_serial_pdu [x03; x00; x00; x00; x01] 10)] idle
  = (inr (Some [x0a; x03; x00; x00; x00; x01]), idle).
Proof. vm_compute. reflexivity. Qed.

Example own_frame_rejected :
  let '(res, w) :=
    get_request Described.form_serial_pdu Described.parse_request
      exception_task bytes holding_only
      fast_server (Some [10]) (Some 120000)
      [(300, Described.form_serial_pdu [x07; x00; x00; x00; x01] 10)] idle
  in res = inr None
     /\ outbound (effects (log w))
        = Described.form_serial_pdu [x87; x01] 10.
Proof. vm_compute. split; reflexivity. Qed.

(** A frame for another unit, framed as the sender would. *)
Example foreign_frame_is_well_formed :
  Described.form_serial_pdu [x07; x00; x00; x00; x01] 11
  = [x0b; x07; x00; x00; x00; x01; x75; x60].
Proof. vm_compute. reflexivity. Qed.

(** ** The TCP host: validation of the response header *)

Import Described.

(** Validation never changes the host. *)
Lemma validate_keeps_host (response : bytes) (tid slave_addr fc : Z)
    (h : Host) :
  snd (_validate_resp_hdr response tid slave_addr fc h) = h.
Proof.
  unfold _validate_resp_hdr.
  destruct (unwrap response) as [e|[[u pdu] rec_tid]]; [reflexivity|].
  destruct (negb (rec_tid =? tid)); [reflexivity|].
  destruct (negb (u =? slave_addr)); [reflexivity|].
  destruct (function_code pdu =? fc); [reflexivity|].
  destruct (function_code pdu =? Z.lor fc 128); [|reflexivity].
  destruct (payload pdu); reflexivity.
Qed.

(** A well-formed response with another transaction id is an
    [UnexpectedTransaction], whatever else it carries. *)
Lemma validate_wrong_tid (response : bytes) (tid slave_addr fc : Z)
    (h : Host) (u : Z) (pdu : PDU) (rec_tid : Z) :
  unwrap response = inr (u, pdu, rec_tid) ->
  rec_tid <> tid ->
  _validate_resp_hdr response tid slave_addr fc h
  = (inl UnexpectedTransaction, h).
Proof.
  intros Hu Hne. unfold _validate_resp_hdr. rewrite Hu.
  destruct (Z.eqb_spec rec_tid tid); [contradiction|reflexivity].
Qed.

(** C8.  When the response read for a request is a TCP frame whose
    transaction id is not the one issued, the request ends with the error
    [UnexpectedTransaction]; the validation leaves the host as the issuing
    of the request left it; and nothing is retried: one frame has been
    written and one response has been read. *)
Theorem unexpected_transaction (unit_addr : Z) (pdu : PDU) (h : Host)
    (tr : transport) (response : bytes) (rest : list (option bytes))
    (u : Z) (rpdu : PDU) (rec_tid : Z) :
  readable tr = Some response :: rest ->
  unwrap response = inr (u, rpdu, rec_tid) ->
  rec_tid <> trans_id_ctr h ->
  let issued := _create_mbap_hdr unit_addr (pdu_bytes pdu) h in
  _validate_resp_hdr response (snd (fst issued)) unit_addr
    (function_code pdu) (snd issued)
  = (inl UnexpectedTransaction, snd issued)
  /\
  request unit_addr pdu h tr
  = (inl UnexpectedTransaction, snd issued,
     {| written := written tr ++ [fst (fst issued) ++ pdu_bytes pdu];
        readable := rest |}).
Proof.
  intros Hrd Hu Hne issued. subst issued.
  unfold request, _create_mbap_hdr. cbn [fst snd readable written].
  rewrite Hrd.
  rewrite (validate_wrong_tid _ _ _ _ _ u rpdu rec_tid Hu Hne).
  split; reflexivity.
Qed.

Lemma unexpected_transaction_witness :
  request 10 {| function_code := 3; payload := [x00; x13; x00; x01] |}
    {| trans_id_ctr := 10 |}
    {| written := [];
       readable := [Some [x00; x09; x00; x00; x00; x05; x0a; x03; x02;
                          x00; x13]] |}
  = (inl UnexpectedTransaction, {| trans_id_ctr := 11 |},
     {| written := [[x00; x0a; x00; x00; x00; x06; x0a;
                     x03; x00; x13; x00; x01]];
        readable := [] |}).
Proof.
  exact (proj2 (unexpected_transaction 10
                  {| function_code := 3; payload := [x00; x13; x00; x01] |}
                  {| trans_id_ctr := 10 |}
                  {| written := [];
                     readable := [Some [x00; x09; x00; x00; x00; x05; x0a;
                                        x03; x02; x00; x13]] |}
                  [x00; x09; x00; x00; x00; x05; x0a; x03; x02; x00; x13]
                  [] 10 {| function_code := 3; payload := [x02; x00; x13] |}
                  9 eq_refl eq_refl ltac:(discriminate))).
Defined.

(** The vectors of [test__validate_resp_hdr]: the positive path returns
    the bytes after the function code. *)
Example test_validate_read_coil :
  fst (_validate_resp_hdr
         [x00; x01; x00; x00; x00; x04; x0a; x01; x01; x01] 1 10 1
         {| trans_id_ctr := 0 |})
  = inr [x01; x01].
Proof. reflexivity. Qed.

Example test_validate_read_holding :
  fst (_validate_resp_hdr
         [x00; x04; x00; x00; x00; x05; x0a; x03; x02; x00; x13] 4 10 3
         {| trans_id_ctr := 0 |})
  = inr [x02; x00; x13].
Proof. reflexivity. Qed.

Example test_validate_write_register :
  fst (_validate_resp_hdr
         [x00; x07; x00; x00; x00; x06; x0a; x06; x00; x5d; x00; x14] 7 10 6
         {| trans_id_ctr := 0 |})
  = inr [x00; x5d; x00; x14].
Proof. reflexivity. Qed.

(** The negative path of the test: the last response of the positive
    path, which carries transaction id 7, against transaction id 10. *)
Example test_validate_wrong_tid :
  _validate_resp_hdr
    [x00; x07; x00; x00; x00; x06; x0a; x06; x00; x5d; x00; x14] 10 10 3
    {| trans_id_ctr := 0 |}
  = (inl UnexpectedTransaction, {| trans_id_ctr := 0 |}).
Proof. reflexivity. Qed.

(** [test__create_mbap_hdr]: the header of a write-single-coil request to
    unit 10, and the counter one further. *)
Example test_create_mbap_hdr :
  _create_mbap_hdr 10 [x05; x00; x7b; xff; x00] {| trans_id_ctr := 517 |}
  = (([x02; x05; x00; x00; x00; x06; x0a], 517), {| trans_id_ctr := 518 |}).
Proof. reflexivity. Qed.

(** An exception response is reported as such, and a frame with a bad
    protocol id is a framing error before its transaction id is looked
    at. *)
Example validate_remote_exception :
  fst (_validate_resp_hdr
         [x00; x04; x00; x00; x00; x03; x0a; x83; x02] 4 10 3
         {| trans_id_ctr := 0 |})
  = inl (RemoteException 2).
Proof. reflexivity. Qed.

Example validate_malformed :
  fst (_validate_resp_hdr
         [x00; x09; x00; x01; x00; x03; x0a; x83; x02] 4 10 3
         {| trans_id_ctr := 0 |})
  = inl (Frame MalformedMBAP).
Proof. reflexivity. Qed.

(** * Further properties of the source *)

(** ** The constructor *)

Lemma t35chars_vs_t1char_witness :
  7 * 1145 - 1 <= 2 * 4010 <= 7 * 1145 + 6.
Proof.
  exact (t35chars_vs_t1char default_config slow_server eq_refl
           ltac:(cbn; lia)).
Defined.

(** With at least 8 data and stop bits, the silence interval of a slow
    line is above the fixed value of the fast lines. *)
Lemma slow_silence_bound (k b : Z) :
  10 <= k -> 0 < b <= 19200 -> 1822 <= (3500000 * k) / b.
Proof.
  intros Hk Hb. apply Z.div_le_lower_bound; [lia|]. nia.
Qed.

(** X1.  For a positive baudrate and at least 8 data and stop bits
    together, the silence interval [_t35chars] is never below 1750
    microseconds: the fixed value of the fast lines is a floor. *)
Theorem t35chars_floor (c : config) (self : AsyncRTUServer) :
  init c = inr self ->
  0 < baudrate c ->
  8 <= data_bits c + stop_bits c ->
  1750 <= _t35chars self.
Proof.
  intros H Hb Hk. destruct (init_inv c self H) as (_ & _ & _ & _ & E).
  rewrite E. destruct (Z.leb_spec (baudrate c) 19200); [|lia].
  pose proof (slow_silence_bound (data_bits c + stop_bits c + 2)
                (baudrate c) ltac:(lia) ltac:(lia)).
  lia.
Qed.

Lemma t35chars_floor_witness : 1750 <= 4010 /\ 1750 <= 1750.
Proof.
  split.
  - exact (t35chars_floor default_config slow_server eq_refl
             ltac:(cbn; lia) ltac:(cbn; lia)).
  - exact (t35chars_floor fast_config fast_server eq_refl
             ltac:(cbn; lia) ltac:(cbn; lia)).
Defined.

(** Below 8 data and stop bits the floor fails: 5 data bits at 19200
    baud give a silence of 1458 microseconds. *)
Example short_characters_undercut :
  init {| uart_id := 1; baudrate := 19200; data_bits := 5; stop_bits := 1;
          parity := None; pins := Some (25, 26); ctrl_pin := None |}
  = inr {| _ctrlPin := None; _t1char := 416; _t35chars := 1458 |}.
Proof. reflexivity. Qed.

(** X2.  With the same character format of at least 8 data and stop
    bits, a faster line has neither a longer character time nor a longer
    silence interval than a slower one. *)
Theorem timing_antitone (c1 c2 : config) (s1 s2 : AsyncRTUServer) :
  init c1 = inr s1 ->
  init c2 = inr s2 ->
  data_bits c1 + stop_bits c1 = data_bits c2 + stop_bits c2 ->
  8 <= data_bits c1 + stop_bits c1 ->
  0 < baudrate c1 <= baudrate c2 ->
  _t1char s2 <= _t1char s1 /\ _t35chars s2 <= _t35chars s1.
Proof.
  intros H1 H2 Hk H8 Hb.
  destruct (init_inv c1 s1 H1) as (_ & _ & _ & E1 & F1).
  destruct (init_inv c2 s2 H2) as (_ & _ & _ & E2 & F2).
  rewrite E1, E2, F1, F2, <- Hk.
  set (k := data_bits c1 + stop_bits c1 + 2).
  split.
  - apply Z.div_le_compat_l; lia.
  - destruct (Z.leb_spec (baudrate c1) 19200);
      destruct (Z.leb_spec (baudrate c2) 19200); try lia.
    + apply Z.div_le_compat_l; lia.
    + pose proof (slow_silence_bound k (baudrate c1) ltac:(lia) ltac:(lia)).
      lia.
Qed.

Lemma timing_antitone_witness : 95 <= 1145 /\ 1750 <= 4010.
Proof.
  exact (timing_antitone default_config fast_config slow_server fast_server
           eq_refl eq_refl eq_refl ltac:(cbn; lia) ltac:(cbn; lia)).
Defined.

(** ** [_uart_read_frame] *)

Section ReadFrameMore.

Variable ft : Z.


End ReadFrameMore.



(** X5.  When the first chunk does not arrive before the overall timeout
    has run out, the call returns the empty [bytearray] after this one
    wait, without an exception, and the chunk stays pending. *)
Theorem read_frame_silent_line (self : AsyncRTUServer) (timeout : option Z)
    (d : Z) (c : bytes) (rest : list arrival) :
  total_timeout self timeout <= d ->
  _uart_read_frame self timeout ((d, c) :: rest) =
  {| received_bytes := [];
     waits := [total_timeout self timeout];
     pending := (d - total_timeout self timeout, c) :: rest |}.
Proof.
  intros Hd. unfold _uart_read_frame. cbn [read_loop].
  destruct (Z.ltb_spec d (total_timeout self timeout)) as [|_]; [lia|].
  reflexivity.
Qed.

Lemma read_frame_silent_line_witness :
  _uart_read_frame slow_server None [(9000, [x0a; x03]); (10, [x00])]
  = {| received_bytes := []; waits := [8020];
       pending := [(980, [x0a; x03]); (10, [x00])] |}.
Proof.
  exact (read_frame_silent_line slow_server None 9000 [x0a; x03]
           [(10, [x00])] ltac:(cbn; lia)).
Defined.

(** X6.  A longer overall timeout never returns less: what the call
    returns with the shorter timeout is a prefix of what it returns with
    the longer one. *)
Theorem read_frame_timeout_monotone (self : AsyncRTUServer)
    (timeout1 timeout2 : option Z) (rx : list arrival) :
  total_timeout self timeout1 <= total_timeout self timeout2 ->
  exists tail : bytes,
    received_bytes (_uart_read_frame self timeout2 rx)
    = received_bytes (_uart_read_frame self timeout1 rx) ++ tail.
Proof.
  intros Hle. unfold _uart_read_frame. destruct rx as [|[d c] rest].
  - exists []. reflexivity.
  - cbn [read_loop].
    destruct (Z.ltb_spec d (total_timeout self timeout1));
      destruct (Z.ltb_spec d (total_timeout self timeout2)); try lia.
    + exists []. rewrite !read_loop_takes_burst. cbn [received_bytes].
      now rewrite app_nil_r.
    + eexists. cbn [received_bytes app]. reflexivity.
    + exists []. reflexivity.
Qed.

Lemma read_frame_timeout_monotone_witness :
  exists tail : bytes,
    received_bytes
      (_uart_read_frame slow_server (Some 120000) [(9000, [x0a; x03])])
    = received_bytes
        (_uart_read_frame slow_server None [(9000, [x0a; x03])]) ++ tail.
Proof.
  exact (read_frame_timeout_monotone slow_server None (Some 120000)
           [(9000, [x0a; x03])] ltac:(cbn; lia)).
Defined.




(** ** [_uart_read] *)

Section UartReadMore.

Variable _exit_read : bytes -> bool.
Variable self : AsyncRTUServer.

Lemma slept_app (l l' : list event) : slept (l ++ l') = slept l + slept l'.
Proof.
  induction l as [|e l IH]; [reflexivity|].
  destruct e; cbn [app slept]; rewrite IH; lia.
Qed.

Lemma sleeps_app (l l' : list event) :
  sleeps (l ++ l') = (sleeps l + sleeps l')%nat.
Proof.
  induction l as [|e l IH]; [reflexivity|].
  destruct e; cbn [app sleeps]; rewrite IH; lia.
Qed.

Lemma reads_made_app (l l' : list event) :
  reads_made (l ++ l') = (reads_made l + reads_made l')%nat.
Proof.
  induction l as [|e l IH]; [reflexivity|].
  destruct e; cbn [app reads_made]; rewrite IH; lia.
Qed.

(** Attempts that did not complete a frame: as many sleeps as reads. *)
Lemma attempts_count (reads : nat -> bytes) (n : nat) :
  forall k,
    sleeps (attempts self reads k n) = n /\
    reads_made (attempts self reads k n) = n /\
    slept (attempts self reads k n) = Z.of_nat n * _t35chars self.
Proof.
  induction n as [|n IH]; intros k; [now cbn|].
  rewrite attempts_S. cbn [sleeps reads_made slept].
  destruct (IH (S k)) as (E1 & E2 & E3). rewrite E1, E2, E3.
  repeat split; lia.
Qed.

(** The loop looks at the reads of its own attempts only. *)
Lemma uart_read_loop_ext (reads reads' : nat -> bytes) (iters : list nat) :
  forall k response trace,
    (forall i, (i < length iters)%nat -> reads (k + i)%nat = reads' (k + i)%nat) ->
    uart_read_loop _exit_read self reads iters k response trace
    = uart_read_loop _exit_read self reads' iters k response trace.
Proof.
  induction iters as [|i iters IH]; intros k response trace H;
    [reflexivity|].
  cbn [uart_read_loop].
  pose proof (H 0%nat ltac:(cbn; lia)) as H0.
  rewrite Nat.add_0_r in H0. rewrite <- H0.
  destruct (_exit_read (response ++ reads k)); [reflexivity|].
  apply IH. intros j Hj.
  replace (S k + j)%nat with (k + S j)%nat by lia.
  apply H. cbn. lia.
Qed.

End UartReadMore.

(** [_uart_read] reads at least once. *)
Lemma uart_read_reads_once (_exit_read : bytes -> bool)
    (self : AsyncRTUServer) (reads : nat -> bytes) :
  (1 <= reads_made (snd (_uart_read _exit_read self reads)))%nat.
Proof.
  unfold _uart_read.
  destruct (uart_read_loop_spec _exit_read self reads (range 1 40)
              0%nat [] []) as (n & _ & Hcase).
  change (length (range 1 40)) with 39%nat in Hcase.
  cbn [app] in Hcase.
  destruct Hcase as [(Hn & _ & _ & Htr) | (Hn & _ & Htr)]; rewrite Htr.
  - rewrite reads_made_app. cbn [reads_made]. lia.
  - destruct (attempts_count self reads n 0) as (_ & E2 & _).
    rewrite E2. lia.
Qed.

(** X9.  A call of [_uart_read] makes between 1 and 39 reads; it sleeps
    after each of them except, when a frame is complete, the last; and
    every sleep is one silence interval, so that it sleeps at most
    [39 * _t35chars] in all. *)
Theorem uart_read_effort (_exit_read : bytes -> bool)
    (self : AsyncRTUServer) (reads : nat -> bytes) :
  let trace := snd (_uart_read _exit_read self reads) in
  (1 <= reads_made trace <= 39)%nat /\
  (sleeps trace <= reads_made trace <= S (sleeps trace))%nat /\
  slept trace = Z.of_nat (sleeps trace) * _t35chars self.
Proof.
  intros trace. subst trace. unfold _uart_read.
  destruct (uart_read_loop_spec _exit_read self reads (range 1 40)
              0%nat [] []) as (n & _ & Hcase).
  change (length (range 1 40)) with 39%nat in Hcase.
  cbn [app] in Hcase.
  destruct Hcase as [(Hn & _ & _ & Htr) | (Hn & _ & Htr)]; rewrite Htr.
  - destruct (attempts_count self reads (n - 1) 0) as (E1 & E2 & E3).
    rewrite sleeps_app, reads_made_app, slept_app, E1, E2, E3.
    cbn [sleeps reads_made slept]. repeat split; lia.
  - destruct (attempts_count self reads n 0) as (E1 & E2 & E3).
    rewrite E1, E2, E3. repeat split; lia.
Qed.

(** X10.  [_uart_read] looks at the first 39 reads only: readers that
    agree on them give the same response and the same trace. *)
Theorem uart_read_first_39 (_exit_read : bytes -> bool)
    (self : AsyncRTUServer) (reads reads' : nat -> bytes) :
  (forall k, (k < 39)%nat -> reads k = reads' k) ->
  _uart_read _exit_read self reads = _uart_read _exit_read self reads'.
Proof.
  intros H. unfold _uart_read. apply uart_read_loop_ext.
  intros i Hi. change (length (range 1 40)) with 39%nat in Hi.
  apply H. exact Hi.
Qed.

Lemma uart_read_first_39_witness :
  _uart_read (fun r => 100 <=? Z.of_nat (length r)) slow_server
    (fun _ => [x0a])
  = _uart_read (fun r => 100 <=? Z.of_nat (length r)) slow_server
      (fun k => if (k <? 39)%nat then [x0a] else [x0b]).
Proof.
  apply (uart_read_first_39 (fun r => 100 <=? Z.of_nat (length r))
           slow_server (fun _ => [x0a])
           (fun k => if (k <? 39)%nat then [x0a] else [x0b])).
  intros k Hk. destruct (Nat.ltb_spec k 39); [reflexivity|lia].
Defined.

(** ** [_send] and the coroutines built on it *)

Lemma effects_app (l l' : list (Z * event)) :
  effects (l ++ l') = effects l ++ effects l'.
Proof. apply map_app. Qed.

Lemma outbound_app (l l' : list event) :
  outbound (l ++ l') = outbound l ++ outbound l'.
Proof.
  induction l as [|e l IH]; [reflexivity|].
  destruct e; cbn [app outbound]; rewrite IH; try reflexivity.
  now rewrite app_assoc.
Qed.

Lemma last_pin_app (l l' : list event) :
  forall v, last_pin (l ++ l') v = last_pin l' (last_pin l v).
Proof.
  induction l as [|e l IH]; intros v; [reflexivity|].
  destruct e; cbn [app last_pin]; apply IH.
Qed.

Lemma outbound_send_trace (self : AsyncRTUServer) (serial_pdu : bytes)
    (hold : Z) :
  outbound (send_trace self serial_pdu hold) = serial_pdu.
Proof.
  unfold send_trace. destruct (_ctrlPin self); cbn; apply app_nil_r.
Qed.

Lemma last_pin_send_trace (self : AsyncRTUServer) (serial_pdu : bytes)
    (hold : Z) :
  last_pin (send_trace self serial_pdu hold) 0 = 0.
Proof. unfold send_trace. destruct (_ctrlPin self); reflexivity. Qed.

Section Sending.

Variable _form_serial_pdu : bytes -> Z -> bytes.
Variable _exit_read : bytes -> bool.
Variable _parse_request : bytes -> option (list Z) -> option bytes.
Variable super_send_exception_response : Z -> Z -> Z -> option (bytes * Z).
Variable AsyncRequest : Type.
Variable new_AsyncRequest : AsyncRTUServer -> bytes -> exn + AsyncRequest.
Variable super_send_response :
  Z -> Z -> Z -> Z -> list Z -> option (list Z) -> bool -> option (bytes * Z).
Variable _validate_resp_hdr : bytes -> Z -> Z -> bool -> exn + bytes.
Variable self : AsyncRTUServer.

(** What [_send] adds to the record of effects. *)
Lemma send_effects (modbus_pdu : bytes) (slave_addr : Z) (w : world) :
  exists hold : Z,
    effects (log (snd (_send _form_serial_pdu self modbus_pdu slave_addr w)))
    = effects (log w)
      ++ send_trace self (_form_serial_pdu modbus_pdu slave_addr) hold.
Proof.
  unfold send_trace. destruct (_ctrlPin self) as [pin|] eqn:H.
  - run_send H. eexists. rewrite !effects_app. cbn [effects map snd].
    rewrite <- !app_assoc. reflexivity.
  - run_send H. exists 0. rewrite !effects_app. cbn [effects map snd].
    rewrite <- !app_assoc. reflexivity.
Qed.

Lemma send_exception_response_effects (slave_addr function_code
    exception_code : Z) (w : world) :
  snd (send_exception_response _form_serial_pdu
         super_send_exception_response self slave_addr function_code
         exception_code w) = w
  \/
  exists modbus_pdu addr hold,
    super_send_exception_response slave_addr function_code exception_code
      = Some (modbus_pdu, addr) /\
    effects (log (snd (send_exception_response _form_serial_pdu
                         super_send_exception_response self slave_addr
                         function_code exception_code w)))
    = effects (log w)
      ++ send_trace self (_form_serial_pdu modbus_pdu addr) hold.
Proof.
  unfold send_exception_response.
  destruct (super_send_exception_response slave_addr function_code
              exception_code) as [[modbus_pdu addr]|].
  - right. destruct (send_effects modbus_pdu addr w) as [hold E].
    exists modbus_pdu, addr, hold. split; [reflexivity|exact E].
  - left. reflexivity.
Qed.

(** The outcome of [get_request], branch by branch. *)
Lemma get_request_outcome (unit_addr_list : option (list Z))
    (timeout : option Z) (rx : list arrival) (w : world) :
  get_request _form_serial_pdu _parse_request super_send_exception_response
    AsyncRequest new_AsyncRequest self unit_addr_list timeout rx w
  = match _parse_request (received_bytes (_uart_read_frame self timeout rx))
            unit_addr_list with
    | None => (inr None, w)
    | Some data =>
        match new_AsyncRequest self data with
        | inr request => (inr (Some request), w)
        | inl (ModbusException function_code exception_code) =>
            match received_bytes (_uart_read_frame self timeout rx) with
            | [] => (inl IndexError, w)
            | b :: _ =>
                (inr None,
                 snd (send_exception_response _form_serial_pdu
                        super_send_exception_response self (byte_val b)
                        function_code exception_code w))
            end
        | inl e => (inl e, w)
        end
    end.
Proof.
  unfold get_request.
  destruct (_parse_request _ unit_addr_list) as [data|]; [|reflexivity].
  destruct (new_AsyncRequest self data) as [e|request]; [|reflexivity].
  destruct e as [ | | | fc ec | code]; try reflexivity.
  destruct (received_bytes (_uart_read_frame self timeout rx)) as [|b rest];
    [reflexivity|].
  unfold bind, ret.
  destruct (send_exception_response _ _ self (byte_val b) fc ec w).
  reflexivity.
Qed.

(** Playing a trace records it, event by event. *)
Lemma play_effects (trace : list event) :
  forall w, effects (log (snd (play trace w))) = effects (log w) ++ trace.
Proof.
  induction trace as [|e trace IH]; intros w.
  - cbn. now rewrite app_nil_r.
  - destruct e; cbn [play]; unfold bind, sleep_us, emit, elapse, bind;
      cbn [fst snd]; rewrite IH; cbn [log clock latency];
      rewrite effects_app; cbn [effects map snd];
      now rewrite <- app_assoc.
Qed.

Lemma uart_read_io_outcome (reads : nat -> bytes) (w : world) :
  fst (uart_read_io _exit_read self reads w)
    = fst (_uart_read _exit_read self reads) /\
  effects (log (snd (uart_read_io _exit_read self reads w)))
    = effects (log w) ++ snd (_uart_read _exit_read self reads).
Proof.
  unfold uart_read_io.
  destruct (_uart_read _exit_read self reads) as [response trace].
  unfold bind, ret. pose proof (play_effects trace w) as E.
  destruct (play trace w) as [u w']. cbn [fst snd] in *.
  split; [reflexivity|exact E].
Qed.

(** The outcome of [_send_receive]: the validated response of
    [_uart_read] on the reads after the flush, and the effects in the
    order flush, send, receive. *)
Lemma send_receive_outcome (slave_addr : Z) (modbus_pdu : bytes)
    (count : bool) (reads : nat -> bytes) (w : world) :
  let run := _send_receive _form_serial_pdu _exit_read _validate_resp_hdr
               self slave_addr modbus_pdu count reads w in
  let answer := _uart_read _exit_read self (fun k => reads (S k)) in
  fst run =
    match modbus_pdu with
    | [] => inl IndexError
    | function_code :: _ =>
        _validate_resp_hdr (fst answer) slave_addr (byte_val function_code)
          count
    end /\
  exists hold : Z,
    effects (log (snd run))
    = effects (log w)
      ++ EvRead (reads 0%nat)
         :: send_trace self (_form_serial_pdu modbus_pdu slave_addr) hold
      ++ snd answer.
Proof.
  intros run answer. subst run answer.
  unfold _send_receive, bind, emit. cbn [fst snd].
  set (w1 := {| clock := clock w; ticks_period := ticks_period w;
                latency := latency w;
                log := log w ++ [(clock w, EvRead (reads 0%nat))] |}).
  destruct (send_effects modbus_pdu slave_addr w1) as [hold E1].
  destruct (_send _form_serial_pdu self modbus_pdu slave_addr w1)
    as [u w2]. cbn [snd] in E1.
  destruct (uart_read_io_outcome (fun k => reads (S k)) w2) as [F E2].
  destruct (uart_read_io _exit_read self (fun k => reads (S k)) w2)
    as [response w3]. cbn [fst snd] in F, E2.
  assert (E : effects (log w3)
              = effects (log w)
                ++ EvRead (reads 0%nat)
                   :: send_trace self
                        (_form_serial_pdu modbus_pdu slave_addr) hold
                ++ snd (_uart_read _exit_read self (fun k => reads (S k)))).
  { rewrite E2, E1. subst w1. cbn [log]. rewrite effects_app.
    cbn [effects map snd]. now rewrite <- !app_assoc. }
  destruct modbus_pdu as [|function_code rest]; unfold ret; cbn [fst snd].
  - split; [reflexivity|]. exists hold. exact E.
  - split; [now rewrite F|]. exists hold. exact E.
Qed.

(** The trace of [_uart_read] holds reads and sleeps only. *)
Lemma uart_read_trace_quiet (reads : nat -> bytes) :
  outbound (snd (_uart_read _exit_read self reads)) = [] /\
  forall v, last_pin (snd (_uart_read _exit_read self reads)) v = v.
Proof.
  assert (A : forall n k,
             outbound (attempts self reads k n) = [] /\
             forall v, last_pin (attempts self reads k n) v = v).
  { induction n as [|n IH]; intros k; [split; reflexivity|].
    rewrite attempts_S. cbn [outbound last_pin]. apply IH. }
  unfold _uart_read.
  destruct (uart_read_loop_spec _exit_read self reads (range 1 40)
              0%nat [] []) as (n & _ & Hcase).
  cbn [app] in Hcase.
  destruct Hcase as [(_ & _ & _ & Htr) | (_ & _ & Htr)]; rewrite Htr.
  - destruct (A (n - 1)%nat 0%nat) as [O L]. split.
    + rewrite outbound_app, O. reflexivity.
    + intros v. rewrite last_pin_app, L. reflexivity.
  - apply A.
Qed.

End Sending.

(** X11.  With or without a direction pin, [_send] hands the UART the
    framed PDU, once, and no other byte. *)
Theorem send_writes_frame_once (_form_serial_pdu : bytes -> Z -> bytes)
    (self : AsyncRTUServer) (modbus_pdu : bytes) (slave_addr : Z)
    (w : world) :
  outbound
    (effects (log (snd (_send _form_serial_pdu self modbus_pdu slave_addr w))))
  = outbound (effects (log w)) ++ _form_serial_pdu modbus_pdu slave_addr.
Proof.
  destruct (send_effects _form_serial_pdu self modbus_pdu slave_addr w)
    as [hold E].
  now rewrite E, outbound_app, outbound_send_trace.
Qed.

(** X12.  With a direction pin, the hold that [_send] asks for is the
    frame time less the time that has passed between its two readings of
    the clock, plus one period of [ticks_us] for every wrap of the counter
    between them: the readings are subtracted as plain integers.  The pin
    goes to 0 no earlier than this hold after the second reading. *)
Theorem send_hold_formula (_form_serial_pdu : bytes -> Z -> bytes)
    (self : AsyncRTUServer) (pin : Z) (modbus_pdu : bytes) (slave_addr : Z)
    (w : world) :
  _ctrlPin self = Some pin ->
  let serial_pdu := _form_serial_pdu modbus_pdu slave_addr in
  let period := Z.pos (ticks_period w) in
  exists t_on t_write t_drain t_hold t_off hold : Z,
    log (snd (_send _form_serial_pdu self modbus_pdu slave_addr w))
      = log w ++ [(t_on, EvPin pin 1); (t_on, EvSleep 1000);
                  (t_write, EvWrite serial_pdu); (t_drain, EvDrain);
                  (t_hold, EvSleep hold); (t_off, EvPin pin 0)] /\
    hold = _t1char self * Z.of_nat (length serial_pdu)
           - (t_hold - t_write)
           + period * (t_hold / period - t_write / period) /\
    t_hold + Z.max 0 hold <= t_off.
Proof.
  intros H serial_pdu period. subst serial_pdu period. run_send H.
  set (frame := _form_serial_pdu modbus_pdu slave_addr).
  set (l1 := Z.of_N (hd 0%N (latency w))).
  set (l2 := Z.of_N (hd 0%N (tl (latency w)))).
  set (l3 := Z.of_N (hd 0%N (tl (tl (latency w))))).
  set (l4 := Z.of_N (hd 0%N (tl (tl (tl (latency w)))))).
  assert (0 <= l4) by (subst l4; lia).
  set (P := Z.pos (ticks_period w)).
  set (c1 := clock w + Z.max 0 1000 + l1).
  set (c3 := c1 + 0 + l2 + 0 + l3).
  set (T := _t1char self * Z.of_nat (length frame)).
  exists (clock w), c1, (c1 + 0 + l2), c3.
  exists (c3 + Z.max 0 (c1 mod P + T - c3 mod P) + l4).
  exists (c1 mod P + T - c3 mod P).
  split; [now rewrite <- !app_assoc|].
  split; [|lia].
  rewrite (Z.mod_eq c1 P), (Z.mod_eq c3 P) by (subst P; lia). lia.
Qed.

Lemma send_hold_formula_witness :
  exists t_on t_write t_drain t_hold t_off hold : Z,
    log (snd (_send Described.form_serial_pdu fast_server [x03; x00] 10 idle))
      = [] ++ [(t_on, EvPin 12 1); (t_on, EvSleep 1000);
               (t_write,
                EvWrite (Described.form_serial_pdu [x03; x00] 10));
               (t_drain, EvDrain);
               (t_hold, EvSleep hold); (t_off, EvPin 12 0)] /\
    hold = 95 * Z.of_nat (length (Described.form_serial_pdu [x03; x00] 10))
           - (t_hold - t_write)
           + 11 * (t_hold / 11 - t_write / 11) /\
    t_hold + Z.max 0 hold <= t_off.
Proof.
  exact (send_hold_formula Described.form_serial_pdu fast_server 12
           [x03; x00] 10 idle eq_refl).
Defined.

(** When nothing takes longer than asked and the counter does not wrap,
    the pin is released one frame time after the write, to the
    microsecond. *)
Example send_ideal_run :
  log (snd (_send Described.form_serial_pdu fast_server [x03; x00] 10
              {| clock := 0; ticks_period := 1073741824; latency := [];
                 log := [] |}))
  = [(0, EvPin 12 1); (0, EvSleep 1000);
     (1000, EvWrite [x0a; x03; x00; x51; x32]); (1000, EvDrain);
     (1000, EvSleep 475); (1475, EvPin 12 0)].
Proof. vm_compute. reflexivity. Qed.

(** When the counter wraps between the readings, the hold is a whole
    period too long. *)
Example send_wrapping_run :
  log (snd (_send Described.form_serial_pdu fast_server [x03; x00] 10
              {| clock := 1073740800; ticks_period := 1073741824;
                 latency := [0; 0; 100]%N; log := [] |}))
  = [(1073740800, EvPin 12 1); (1073740800, EvSleep 1000);
     (1073741800, EvWrite [x0a; x03; x00; x51; x32]);
     (1073741800, EvDrain);
     (1073741900, EvSleep 1073742199); (2147484099, EvPin 12 0)].
Proof. vm_compute. reflexivity. Qed.

(** A run that adds a trace which ends with the pin at 0 keeps the driver
    off. *)
Lemma driver_off_after (w w' : world) (trace : list event) :
  effects (log w') = effects (log w) ++ trace ->
  last_pin trace 0 = 0 ->
  driver_off w -> driver_off w'.
Proof.
  unfold driver_off. intros E L Hoff.
  now rewrite E, last_pin_app, Hoff.
Qed.

Lemma send_driver_off (_form_serial_pdu : bytes -> Z -> bytes)
    (self : AsyncRTUServer) (modbus_pdu : bytes) (slave_addr : Z)
    (w : world) :
  driver_off w ->
  driver_off (snd (_send _form_serial_pdu self modbus_pdu slave_addr w)).
Proof.
  destruct (send_effects _form_serial_pdu self modbus_pdu slave_addr w)
    as [hold E].
  apply (driver_off_after _ _ _ E), last_pin_send_trace.
Qed.

(** X13.  No coroutine that sends leaves the RS-485 driver on: when the
    direction pin is at 0 (or was never set) before [_send],
    [send_response], [send_exception_response], [get_request] or
    [_send_receive], it is at 0 after. *)
Theorem driver_stays_off (_form_serial_pdu : bytes -> Z -> bytes)
    (_exit_read : bytes -> bool)
    (_parse_request : bytes -> option (list Z) -> option bytes)
    (super_send_exception_response : Z -> Z -> Z -> option (bytes * Z))
    (AsyncRequest : Type)
    (new_AsyncRequest : AsyncRTUServer -> bytes -> exn + AsyncRequest)
    (super_send_response :
       Z -> Z -> Z -> Z -> list Z -> option (list Z) -> bool
       -> option (bytes * Z))
    (_validate_resp_hdr : bytes -> Z -> Z -> bool -> exn + bytes)
    (self : AsyncRTUServer) (w : world) :
  driver_off w ->
  (forall modbus_pdu slave_addr,
     driver_off (snd (_send _form_serial_pdu self modbus_pdu slave_addr w)))
  /\
  (forall slave_addr fc register_addr register_qty request_data values
          signed request,
     driver_off
       (snd (send_response _form_serial_pdu AsyncRequest super_send_response
               self slave_addr fc register_addr register_qty request_data
               values signed request w)))
  /\
  (forall slave_addr fc ec,
     driver_off
       (snd (send_exception_response _form_serial_pdu
               super_send_exception_response self slave_addr fc ec w)))
  /\
  (forall unit_addr_list timeout rx,
     driver_off
       (snd (get_request _form_serial_pdu _parse_request
               super_send_exception_response AsyncRequest new_AsyncRequest
               self unit_addr_list timeout rx w)))
  /\
  (forall slave_addr modbus_pdu count reads,
     driver_off
       (snd (_send_receive _form_serial_pdu _exit_read _validate_resp_hdr
               self slave_addr modbus_pdu count reads w))).
Proof.
  intros Hoff.
  assert (Hexc : forall slave_addr fc ec,
             driver_off
               (snd (send_exception_response _form_serial_pdu
                       super_send_exception_response self slave_addr fc ec
                       w))).
  { intros slave_addr fc ec. unfold send_exception_response.
    destruct (super_send_exception_response slave_addr fc ec)
      as [[modbus_pdu addr]|]; [|exact Hoff].
    now apply send_driver_off. }
  split; [|split; [|split; [|split]]].
  - intros. now apply send_driver_off.
  - intros. unfold send_response.
    destruct (super_send_response slave_addr fc register_addr register_qty
                request_data values signed) as [[modbus_pdu addr]|];
      [|exact Hoff].
    now apply send_driver_off.
  - exact Hexc.
  - intros. rewrite get_request_outcome.
    destruct (_parse_request _ unit_addr_list) as [data|]; [|exact Hoff].
    destruct (new_AsyncRequest self data) as [e|request]; [|exact Hoff].
    destruct e as [ | | | fc ec | code]; try exact Hoff.
    destruct (received_bytes (_uart_read_frame self timeout rx))
      as [|b rest]; [exact Hoff|].
    apply Hexc.
  - intros.
    destruct (send_receive_outcome _form_serial_pdu _exit_read
                _validate_resp_hdr self slave_addr modbus_pdu count reads w)
      as [_ [hold E]].
    apply (driver_off_after _ _ _ E); [|exact Hoff].
    change (EvRead (reads 0%nat) :: ?l) with ([EvRead (reads 0%nat)] ++ l).
    rewrite !last_pin_app. cbn [last_pin].
    rewrite last_pin_send_trace.
    apply (uart_read_trace_quiet _exit_read self).
Qed.

Lemma driver_stays_off_witness :
  driver_off
    (snd (_send_receive Described.form_serial_pdu
            (fun r => 5 <=? Z.of_nat (length r)) plain_validate fast_server
            10 [x03; x00] false (fun _ => [x0a; x03; x02; x00; x13]) idle)).
Proof.
  apply (driver_stays_off Described.form_serial_pdu
           (fun r => 5 <=? Z.of_nat (length r)) Described.parse_request
           exception_task bytes holding_only echo_task plain_validate
           fast_server idle).
  reflexivity.
Defined.

(** ** [get_request] *)


(** X15.  [get_request] touches the wire in one case only, that of the
    answered exception, whose result is [None]: whenever it returns a
    request or raises, the world is as it was. *)
Theorem get_request_quiet_unless_answered
    (_form_serial_pdu : bytes -> Z -> bytes)
    (_parse_request : bytes -> option (list Z) -> option bytes)
    (super_send_exception_response : Z -> Z -> Z -> option (bytes * Z))
    (AsyncRequest : Type)
    (new_AsyncRequest : AsyncRTUServer -> bytes -> exn + AsyncRequest)
    (self : AsyncRTUServer) (unit_addr_list : option (list Z))
    (timeout : option Z) (rx : list arrival) (w : world) :
  fst (get_request _form_serial_pdu _parse_request
         super_send_exception_response AsyncRequest new_AsyncRequest
         self unit_addr_list timeout rx w)
  <> inr None ->
  snd (get_request _form_serial_pdu _parse_request
         super_send_exception_response AsyncRequest new_AsyncRequest
         self unit_addr_list timeout rx w)
  = w.
Proof.
  rewrite get_request_outcome.
  destruct (_parse_request _ unit_addr_list) as [data|]; [|reflexivity].
  destruct (new_AsyncRequest self data) as [e|request]; [|reflexivity].
  destruct e as [ | | | fc ec | code]; try reflexivity.
  destruct (received_bytes (_uart_read_frame self timeout rx));
    [reflexivity|].
  cbn [fst snd]. intros H. now contradiction H.
Qed.

Lemma get_request_quiet_unless_answered_witness :
  snd (get_request Described.form_serial_pdu Described.parse_request
         exception_task bytes holding_only
         fast_server (Some [10]) (Some 120000)
         [(300, [x0a; x03; x00; x00; x00; x01; x85; x71])] idle)
  = idle.
Proof.
  apply (get_request_quiet_unless_answered Described.form_serial_pdu
           Described.parse_request exception_task bytes holding_only
           fast_server (Some [10]) (Some 120000)
           [(300, [x0a; x03; x00; x00; x00; x01; x85; x71])] idle).
  vm_compute. discriminate.
Defined.

(** X16.  When the request constructor raises [ModbusException] for a
    parsed frame, [get_request] returns [None] and has handed the UART
    one frame and no more: the PDU of the task of
    [send_exception_response], which was asked for with the first byte of
    the frame as slave address and with the codes of the exception. *)
Theorem get_request_answers_exception
    (_form_serial_pdu : bytes -> Z -> bytes)
    (_parse_request : bytes -> option (list Z) -> option bytes)
    (super_send_exception_response : Z -> Z -> Z -> option (bytes * Z))
    (AsyncRequest : Type)
    (new_AsyncRequest : AsyncRTUServer -> bytes -> exn + AsyncRequest)
    (self : AsyncRTUServer) (unit_addr_list : option (list Z))
    (timeout : option Z) (rx : list arrival) (w : world)
    (b : byte) (rest data modbus_pdu : bytes) (fc ec addr : Z) :
  received_bytes (_uart_read_frame self timeout rx) = b :: rest ->
  _parse_request (b :: rest) unit_addr_list = Some data ->
  new_AsyncRequest self data = inl (ModbusException fc ec) ->
  super_send_exception_response (byte_val b) fc ec = Some (modbus_pdu, addr) ->
  let run := get_request _form_serial_pdu _parse_request
               super_send_exception_response AsyncRequest new_AsyncRequest
               self unit_addr_list timeout rx w in
  fst run = inr None /\
  outbound (effects (log (snd run)))
  = outbound (effects (log w)) ++ _form_serial_pdu modbus_pdu addr.
Proof.
  intros Hreq Hparse Hnew Htask run. subst run.
  rewrite get_request_outcome, Hreq, Hparse, Hnew. cbn [fst snd].
  split; [reflexivity|].
  unfold send_exception_response. rewrite Htask.
  destruct (send_effects _form_serial_pdu self modbus_pdu addr w)
    as [hold E].
  now rewrite E, outbound_app, outbound_send_trace.
Qed.

Lemma get_request_answers_exception_witness :
  fst (get_request Described.form_serial_pdu Described.parse_request
         exception_task bytes holding_only
         fast_server (Some [10]) (Some 120000)
         [(300, [x0a; x07; x00; x00; x00; x01; x74; xb1])] idle)
  = inr None /\
  outbound
    (effects
       (log (snd (get_request Described.form_serial_pdu
                    Described.parse_request exception_task bytes
                    holding_only fast_server (Some [10]) (Some 120000)
                    [(300, [x0a; x07; x00; x00; x00; x01; x74; xb1])]
                    idle))))
  = outbound (effects (log idle))
    ++ Described.form_serial_pdu [x87; x01] 10.
Proof.
  apply (get_request_answers_exception Described.form_serial_pdu
           Described.parse_request exception_task bytes holding_only
           fast_server (Some [10]) (Some 120000)
           [(300, [x0a; x07; x00; x00; x00; x01; x74; xb1])] idle
           x0a [x07; x00; x00; x00; x01; x74; xb1]
           [x0a; x07; x00; x00; x00; x01] [x87; x01] 7 1 10).
  - reflexivity.
  - vm_compute. reflexivity.
  - reflexivity.
  - reflexivity.
Defined.

(** ** [_send_receive] *)

(** X17.  What the flushing read finds in the receive buffer before the
    request is sent has no part in the result: readers that differ in
    that first read only give the same result. *)
Theorem send_receive_ignores_flushed
    (_form_serial_pdu : bytes -> Z -> bytes) (_exit_read : bytes -> bool)
    (_validate_resp_hdr : bytes -> Z -> Z -> bool -> exn + bytes)
    (self : AsyncRTUServer) (slave_addr : Z) (modbus_pdu : bytes)
    (count : bool) (reads reads' : nat -> bytes) (w : world) :
  (forall k, reads (S k) = reads' (S k)) ->
  fst (_send_receive _form_serial_pdu _exit_read _validate_resp_hdr self
         slave_addr modbus_pdu count reads w)
  = fst (_send_receive _form_serial_pdu _exit_read _validate_resp_hdr self
           slave_addr modbus_pdu count reads' w).
Proof.
  intros H.
  destruct (send_receive_outcome _form_serial_pdu _exit_read
              _validate_resp_hdr self slave_addr modbus_pdu count reads w)
    as [-> _].
  destruct (send_receive_outcome _form_serial_pdu _exit_read
              _validate_resp_hdr self slave_addr modbus_pdu count reads' w)
    as [-> _].
  replace (_uart_read _exit_read self (fun k => reads' (S k)))
    with (_uart_read _exit_read self (fun k => reads (S k))); [reflexivity|].
  unfold _uart_read. apply uart_read_loop_ext. intros i _. apply H.
Qed.

Lemma send_receive_ignores_flushed_witness :
  fst (_send_receive Described.form_serial_pdu
         (fun r => 5 <=? Z.of_nat (length r)) plain_validate fast_server
         10 [x03; x00] false
         (fun k => match k with
                   | O => [xff; xff]
                   | S _ => [x0a; x03; x02; x00; x13]
                   end) idle)
  = fst (_send_receive Described.form_serial_pdu
           (fun r => 5 <=? Z.of_nat (length r)) plain_validate fast_server
           10 [x03; x00] false
           (fun _ => [x0a; x03; x02; x00; x13]) idle).
Proof.
  apply (send_receive_ignores_flushed Described.form_serial_pdu
           (fun r => 5 <=? Z.of_nat (length r)) plain_validate fast_server
           10 [x03; x00] false
           (fun k => match k with
                     | O => [xff; xff]
                     | S _ => [x0a; x03; x02; x00; x13]
                     end)
           (fun _ => [x0a; x03; x02; x00; x13]) idle).
  intros k. reflexivity.
Defined.

(** X18.  With an empty PDU, [_send_receive] raises [IndexError], but
    only after the frame of the empty PDU has gone to the UART and the
    flush and at least one read for the response have been made: the
    function code is looked up when the response has been read. *)
Theorem send_receive_empty_pdu
    (_form_serial_pdu : bytes -> Z -> bytes) (_exit_read : bytes -> bool)
    (_validate_resp_hdr : bytes -> Z -> Z -> bool -> exn + bytes)
    (self : AsyncRTUServer) (slave_addr : Z) (count : bool)
    (reads : nat -> bytes) (w : world) :
  let run := _send_receive _form_serial_pdu _exit_read _validate_resp_hdr
               self slave_addr [] count reads w in
  fst run = inl IndexError /\
  outbound (effects (log (snd run)))
  = outbound (effects (log w)) ++ _form_serial_pdu [] slave_addr /\
  (reads_made (effects (log w)) + 2
   <= reads_made (effects (log (snd run))))%nat.
Proof.
  intros run. subst run.
  destruct (send_receive_outcome _form_serial_pdu _exit_read
              _validate_resp_hdr self slave_addr [] count reads w)
    as [R [hold E]].
  split; [exact R|]. rewrite E.
  change (EvRead (reads 0%nat) :: ?l) with ([EvRead (reads 0%nat)] ++ l).
  split.
  - rewrite !outbound_app, outbound_send_trace.
    rewrite (proj1 (uart_read_trace_quiet _exit_read self _)).
    cbn [outbound app]. now rewrite app_nil_r.
  - rewrite !reads_made_app. cbn [reads_made].
    pose proof (uart_read_reads_once _exit_read self
                  (fun k => reads (S k))).
    lia.
Qed.

(** X19.  [_send_receive] is half-duplex: it flushes with one read,
    then sends, then reads with [_uart_read]; nothing is read while it
    sends and nothing is written once it reads.  For a PDU that is not
    empty its result is what [_validate_resp_hdr] makes of the response
    of [_uart_read], for the slave address and the first byte of the
    PDU. *)
Theorem send_receive_half_duplex
    (_form_serial_pdu : bytes -> Z -> bytes) (_exit_read : bytes -> bool)
    (_validate_resp_hdr : bytes -> Z -> Z -> bool -> exn + bytes)
    (self : AsyncRTUServer) (slave_addr : Z) (fc : byte) (payload : bytes)
    (count : bool) (reads : nat -> bytes) (w : world) :
  let run := _send_receive _form_serial_pdu _exit_read _validate_resp_hdr
               self slave_addr (fc :: payload) count reads w in
  let answer := _uart_read _exit_read self (fun k => reads (S k)) in
  fst run = _validate_resp_hdr (fst answer) slave_addr (byte_val fc) count /\
  exists sending : list event,
    effects (log (snd run))
    = effects (log w) ++ EvRead (reads 0%nat) :: sending ++ snd answer /\
    outbound sending = _form_serial_pdu (fc :: payload) slave_addr /\
    reads_made sending = 0%nat /\
    outbound (snd answer) = [].
Proof.
  intros run answer. subst run answer.
  destruct (send_receive_outcome _form_serial_pdu _exit_read
              _validate_resp_hdr self slave_addr (fc :: payload) count
              reads w) as [R [hold E]].
  split; [exact R|].
  exists (send_trace self (_form_serial_pdu (fc :: payload) slave_addr) hold).
  split; [exact E|]. split; [apply outbound_send_trace|]. split.
  - unfold send_trace. destruct (_ctrlPin self); reflexivity.
  - apply (uart_read_trace_quiet _exit_read self).
Qed.

(** A request for a holding register and its answer. *)
Example send_receive_run :
  let run := _send_receive Described.form_serial_pdu
               (fun r => 5 <=? Z.of_nat (length r)) plain_validate
               slow_server 10 [x03; x00] false
               (fun k => match k with
                         | O => [xff]
                         | 1%nat => [x0a; x03; x02]
                         | _ => [x00; x13]
                         end) idle in
  fst run = inr [x02; x00; x13] /\
  effects (log (snd run))
  = [EvRead [xff]; EvWrite [x0a; x03; x00; x51; x32]; EvDrain;
     EvRead [x0a; x03; x02]; EvSleep 4010; EvRead [x00; x13]].
Proof. vm_compute. split; reflexivity. Qed.
